(** * chess-support-mcp: the game session manager

    A shallow embedding of [src/chess_support_mcp/server.py]: the
    [GameState] class, the module-level session [_GAME] and the tool
    functions defined over it.  The chess rules themselves live in the
    python-chess package, which the server only calls; they enter the
    development as an interface ([RulesEngine]) with the few facts about
    [chess.Board] the session manager relies on ([RulesEngineLaws]). *)

From Stdlib Require Import ZArith List String Ascii Bool Lia.
Import ListNotations.

Local Open Scope string_scope.
Local Open Scope list_scope.
Local Open Scope Z_scope.

(** ** Python values and containers *)

Module Py.

(** The JSON-like values the tools return: [None], booleans, integers,
    strings, lists and dictionaries.  A dictionary keeps its insertion
    order, as a Python [dict] does. *)
#[warnings="-register-all"]
Inductive value : Type :=
| VNone
| VBool (b : bool)
| VInt (z : Z)
| VStr (s : string)
| VList (l : list value)
| VDict (d : list (string * value)).

Definition dict : Type := list (string * value).

(** A call either returns or raises; an exception is kept as its
    [str(exc)] text. *)
Inductive result (A : Type) : Type :=
| Ok (a : A)
| Raise (msg : string).
Arguments Ok {A} a.
Arguments Raise {A} msg.

(** [d[k]] as a lookup; [None] when the key is absent. *)
Fixpoint dict_get (k : string) (d : dict) : option value :=
  match d with
  | [] => None
  | (k', v) :: d' => if String.eqb k k' then Some v else dict_get k d'
  end.

(** [k in d]. *)
Definition dict_mem (k : string) (d : dict) : bool :=
  match dict_get k d with Some _ => true | None => false end.

(** [d.get(k)]: the value, or [None] for a missing key. *)
Definition dict_get_default (k : string) (d : dict) : value :=
  match dict_get k d with Some v => v | None => VNone end.

(** [d[k]] as an expression: a missing key raises [KeyError]. *)
Definition dict_getitem (k : string) (d : dict) : result value :=
  match dict_get k d with
  | Some v => Ok v
  | None => Raise ("'" ++ k ++ "'")%string
  end.

(** [d[k] = v]: overwrite in place, or append a new key. *)
Fixpoint dict_set (k : string) (v : value) (d : dict) : dict :=
  match d with
  | [] => [(k, v)]
  | (k', v') :: d' =>
      if String.eqb k k' then (k', v) :: d' else (k', v') :: dict_set k v d'
  end.

(** [bool(v)]. *)
Definition truthy (v : value) : bool :=
  match v with
  | VNone => false
  | VBool b => b
  | VInt z => negb (z =? 0)
  | VStr s => negb (String.eqb s "")
  | VList l => match l with [] => false | _ => true end
  | VDict d => match d with [] => false | _ => true end
  end.

(** The truth value of a list: [bool(l)]. *)
Definition nonempty {A : Type} (l : list A) : bool :=
  match l with [] => false | _ :: _ => true end.

Definition py_len {A : Type} (l : list A) : Z := Z.of_nat (List.length l).

(** [l[i]] with Python's negative indices; out of range raises
    [IndexError]. *)
Definition py_getitem {A : Type} (l : list A) (i : Z) : result A :=
  let j := if i <? 0 then py_len l + i else i in
  if j <? 0 then Raise "list index out of range"
  else match nth_error l (Z.to_nat j) with
       | Some a => Ok a
       | None => Raise "list index out of range"
       end.

(** [l[start:]]: a negative [start] counts from the end, and both ends
    are clamped to the list. *)
Definition py_slice_from {A : Type} (l : list A) (start : Z) : list A :=
  let s := if start <? 0 then Z.max 0 (py_len l + start) else start in
  skipn (Z.to_nat s) l.

(** [range(a, b)]. *)
Definition py_range (a b : Z) : list Z :=
  map (fun k => a + Z.of_nat k) (seq 0 (Z.to_nat (b - a))).

(** [enumerate(l)], counting from [k]. *)
Fixpoint enumerate_from {A : Type} (k : Z) (l : list A) : list (Z * A) :=
  match l with
  | [] => []
  | a :: l' => (k, a) :: enumerate_from (k + 1) l'
  end.

Definition py_enumerate {A : Type} (l : list A) : list (Z * A) :=
  enumerate_from 0 l.

(** Whitespace as [str.split()] sees it, for code points below 256:
    TAB..CR, FS..US, space, NEL and NBSP. *)
Definition is_space (c : ascii) : bool :=
  let n := N_of_ascii c in
  (((9 <=? n) && (n <=? 13)) || ((28 <=? n) && (n <=? 32))
   || (n =? 133) || (n =? 160))%N.

Definition str_empty (s : string) : bool :=
  match s with EmptyString => true | String _ _ => false end.

(** [s.split()]: the maximal runs of non-whitespace characters, in
    order.  [cur] is the run being read. *)
Fixpoint split_from (cur : string) (s : string) : list string :=
  match s with
  | EmptyString => if str_empty cur then [] else [cur]
  | String c rest =>
      if is_space c then
        if str_empty cur then split_from "" rest
        else cur :: split_from "" rest
      else split_from (cur ++ String c "")%string rest
  end.

Definition py_split (s : string) : list string := split_from "" s.

End Py.
Import Py.

(** ** A state-and-exception monad

    Methods of [GameState] read and update [self] and may raise; a
    method is a function from the state before the call to its outcome
    and the state after it. *)

Section StateMonad.
Variable S : Type.

Definition M (A : Type) : Type := S -> result A * S.

Definition ret {A : Type} (a : A) : M A := fun s => (Ok a, s).

Definition bind {A B : Type} (m : M A) (f : A -> M B) : M B :=
  fun s =>
    match m s with
    | (Ok a, s') => f a s'
    | (Raise e, s') => (Raise e, s')
    end.

Definition get : M S := fun s => (Ok s, s).
Definition gets {A : Type} (f : S -> A) : M A := fun s => (Ok (f s), s).
Definition modify (f : S -> S) : M unit := fun s => (Ok tt, f s).

(** Evaluate an expression that may raise. *)
Definition lift {A : Type} (r : result A) : M A := fun s => (r, s).

(** A [for] loop that threads a local accumulator. *)
Fixpoint for_each {A B : Type} (l : list A) (acc : B)
    (body : B -> A -> M B) : M B :=
  match l with
  | [] => ret acc
  | a :: l' => bind (body acc a) (fun acc' => for_each l' acc' body)
  end.

(** A list comprehension [[f x for x in l]]. *)
Fixpoint map_m {A B : Type} (f : A -> M B) (l : list A) : M (list B) :=
  match l with
  | [] => ret []
  | a :: l' =>
      bind (f a) (fun b => bind (map_m f l') (fun bs => ret (b :: bs)))
  end.
End StateMonad.

Arguments ret {S A} a.
Arguments bind {S A B} m f.
Arguments get {S}.
Arguments gets {S A} f.
Arguments modify {S} f.
Arguments lift {S A} r.
Arguments for_each {S A B} l acc body.
Arguments map_m {S A B} f l.

Declare Scope monad_scope.
Delimit Scope monad_scope with monad.
Notation "x <- m ;; k" := (bind m (fun x => k))
  (at level 61, m at next level, right associativity) : monad_scope.
Notation "m ;; k" := (bind m (fun _ => k))
  (at level 61, right associativity) : monad_scope.
Local Open Scope monad_scope.

(** ** The rules engine: what the server uses of python-chess *)

Class RulesEngine : Type := {
  Board : Type;
  Move : Type;
  Square : Type;
  Piece : Type;
  (** [chess.Board()] *)
  new_board : Board;
  (** [board.reset()] *)
  board_reset : Board -> Board;
  (** [chess.Move.from_uci(uci)]; raises on a malformed descriptor *)
  from_uci : string -> result Move;
  (** [move.uci()] *)
  move_uci : Move -> string;
  (** [move in board.legal_moves] *)
  legal_moves : Board -> Move -> bool;
  (** [board.san(move)] *)
  san : Board -> Move -> string;
  (** [board.push(move)] *)
  push : Board -> Move -> Board;
  (** [board.move_stack] *)
  move_stack : Board -> list Move;
  (** [board.fen()] *)
  fen : Board -> string;
  (** [board.turn]; [chess.WHITE] is [True] *)
  turn : Board -> bool;
  fullmove_number : Board -> Z;
  halfmove_clock : Board -> Z;
  is_check : Board -> bool;
  is_game_over : Board -> bool;
  (** [board.result(claim_draw=True)] *)
  board_result : Board -> string;
  (** [board.piece_map().items()] *)
  piece_map : Board -> list (Square * Piece);
  (** [str(board)] *)
  board_str : Board -> string;
  (** [chess.square_name(square)] *)
  square_name : Square -> string;
  (** [piece.symbol()] *)
  piece_symbol : Piece -> string
}.

(** [chess.STARTING_FEN]. *)
Definition STARTING_FEN : string :=
  "rnbqkbnr/pppppppp/8/8/8/8/PPPPPPPP/RNBQKBNR w KQkq - 0 1".

(** What [Board.reset()] guarantees: it empties the move stack and
    restores the starting position with White to move. *)
Class ResetLaws (E : RulesEngine) : Prop := {
  stack_reset : forall b, move_stack (board_reset b) = [];
  turn_reset : forall b, turn (board_reset b) = true;
  fen_reset : forall b, fen (board_reset b) = STARTING_FEN
}.

(** What [chess.Board] guarantees about its move stack: a new board has
    no moves, and [push] appends exactly one move to the stack, keeping
    the moves below it.  The move appended is the move as the board
    stores it, which need not be the move passed in: [push] normalises
    castling, so that [e1h1] is stored as [e1g1]. *)
Class RulesEngineLaws (E : RulesEngine) : Prop := {
  stack_new : move_stack new_board = [];
  stack_push :
    forall b m, exists stored, move_stack (push b m) = move_stack b ++ [stored];
  reset_laws :: ResetLaws E
}.

(** ** The session: [GameState] and its methods *)

Section Session.
Context {E : RulesEngine}.

Record GameState : Type := {
  board : Board;
  san_history : list string
}.

Definition set_board (b : Board) (g : GameState) : GameState :=
  {| board := b; san_history := san_history g |}.

Definition set_san_history (h : list string) (g : GameState) : GameState :=
  {| board := board g; san_history := h |}.

Definition stack_of (g : GameState) : list Move := move_stack (board g).

(** [GameState.new()] *)
Definition GameState_new : GameState :=
  {| board := new_board; san_history := [] |}.

(** [GameState.reset] *)
Definition reset : M GameState unit :=
  modify (fun g => set_board (board_reset (board g)) g) ;;
  modify (set_san_history []).

(** [GameState.add_move_uci] *)
Definition add_move_uci (uci : string) : M GameState dict :=
  match from_uci uci with
  | Raise exc =>
      ret [("accepted", VBool false);
           ("reason", VStr "parse_error");
           ("parse_error", VStr exc)]
  | Ok move =>
      legal <- gets (fun g => legal_moves (board g) move) ;;
      if negb legal then
        white <- gets (fun g => turn (board g)) ;;
        ret [("accepted", VBool false);
             ("reason", VStr "illegal");
             ("expected_turn", VStr (if white then "white" else "black"))]
      else
        san_text <- gets (fun g => san (board g) move) ;;
        modify (fun g => set_board (push (board g) move) g) ;;
        modify (fun g => set_san_history (san_history g ++ [san_text]) g) ;;
        ret [("accepted", VBool true)]
  end.

(** [GameState.is_move_legal] *)
Definition is_move_legal (uci : string) : M GameState dict :=
  match from_uci uci with
  | Raise exc => ret [("parse_error", VStr exc); ("legal", VBool false)]
  | Ok move =>
      legal <- gets (fun g => legal_moves (board g) move) ;;
      ret [("legal", VBool legal)]
  end.

(** [GameState.all_moves] *)
Definition all_moves : M GameState (list string) :=
  stack <- gets stack_of ;;
  ret (map move_uci stack).

(** [self.san_history[idx] if idx < len(self.san_history) else None] *)
Definition san_at (idx : Z) : M GameState value :=
  n <- gets (fun g => py_len (san_history g)) ;;
  if idx <? n then
    h <- gets san_history ;;
    s <- lift (py_getitem h idx) ;;
    ret (VStr s)
  else ret VNone.

(** [GameState.all_moves_detailed] *)
Definition all_moves_detailed : M GameState (list value) :=
  stack <- gets stack_of ;;
  for_each (py_enumerate stack) []
    (fun details '(idx, move) =>
       san_v <- san_at idx ;;
       ret (details ++
            [VDict [("ply", VInt (idx + 1));
                    ("uci", VStr (move_uci move));
                    ("san", san_v);
                    ("side", VStr (if idx mod 2 =? 0
                                   then "white" else "black"))]])).

(** [GameState.last_n_moves] *)
Definition last_n_moves (n : Z) : M GameState (list string) :=
  if n <=? 0 then ret []
  else
    stack <- gets stack_of ;;
    ret (map move_uci (py_slice_from stack (- n))).

(** [GameState.last_n_moves_detailed] *)
Definition last_n_moves_detailed (n : Z) : M GameState (list value) :=
  if n <=? 0 then ret []
  else
    len <- gets (fun g => py_len (stack_of g)) ;;
    let start := Z.max 0 (len - n) in
    stop <- gets (fun g => py_len (stack_of g)) ;;
    for_each (py_range start stop) []
      (fun result idx =>
         stack <- gets stack_of ;;
         move <- lift (py_getitem stack idx) ;;
         san_v <- san_at idx ;;
         ret (result ++
              [VDict [("ply", VInt (idx + 1));
                      ("uci", VStr (move_uci move));
                      ("san", san_v);
                      ("side", VStr (if idx mod 2 =? 0
                                     then "white" else "black"))]])).

(** [GameState.ascii_board] *)
Definition ascii_board : M GameState string :=
  gets (fun g => board_str (board g)).

(** [GameState.pieces_map] *)
Definition pieces_map : M GameState dict :=
  items <- gets (fun g => piece_map (board g)) ;;
  for_each items []
    (fun mapping '(square, piece) =>
       ret (dict_set (square_name square) (VStr (piece_symbol piece))
              mapping)).

(** [GameState.status] *)
Definition status : M GameState dict :=
  fen_text <- gets (fun g => fen (board g)) ;;
  let parts := py_split fen_text in
  stack <- gets stack_of ;;
  last_move_uci <-
    (if nonempty stack then
       move <- lift (py_getitem stack (-1)) ;;
       ret (VStr (move_uci move))
     else ret VNone) ;;
  history <- gets san_history ;;
  last_move_san <-
    (if nonempty history then
       s <- lift (py_getitem history (-1)) ;;
       ret (VStr s)
     else ret VNone) ;;
  white <- gets (fun g => turn (board g)) ;;
  fullmove <- gets (fun g => fullmove_number (board g)) ;;
  halfmove <- gets (fun g => halfmove_clock (board g)) ;;
  ply_count <- gets (fun g => py_len (stack_of g)) ;;
  castling_rights <-
    (if 3 <=? py_len parts then
       s <- lift (py_getitem parts 2) ;;
       ret (VStr s)
     else ret VNone) ;;
  en_passant_square <-
    (if 4 <=? py_len parts then
       s <- lift (py_getitem parts 3) ;;
       ret (VStr s)
     else ret VNone) ;;
  stack' <- gets stack_of ;;
  who_moved_last <-
    (if nonempty stack' then
       len <- gets (fun g => py_len (stack_of g)) ;;
       ret (VStr (if (len - 1) mod 2 =? 0 then "white" else "black"))
     else ret VNone) ;;
  check <- gets (fun g => is_check (board g)) ;;
  game_over <- gets (fun g => is_game_over (board g)) ;;
  game_over' <- gets (fun g => is_game_over (board g)) ;;
  result_v <-
    (if game_over' then
       r <- gets (fun g => board_result (board g)) ;;
       ret (VStr r)
     else ret VNone) ;;
  pieces <- pieces_map ;;
  ret [("fen", VStr fen_text);
       ("side_to_move", VStr (if white then "white" else "black"));
       ("fullmove_number", VInt fullmove);
       ("halfmove_clock", VInt halfmove);
       ("ply_count", VInt ply_count);
       ("castling_rights", castling_rights);
       ("en_passant_square", en_passant_square);
       ("last_move_uci", last_move_uci);
       ("last_move_san", last_move_san);
       ("who_moved_last", who_moved_last);
       ("is_check", VBool check);
       ("is_game_over", VBool game_over);
       ("result", result_v);
       ("pieces", VDict pieces)].

(** ** The tools over the module-level session [_GAME] *)

(** [_format_move_detail] *)
Definition _format_move_detail (idx : Z) (move : Move)
    (san_history : list string) : result value :=
  match
    (if idx <? py_len san_history then
       match py_getitem san_history idx with
       | Ok s => Ok (VStr s)
       | Raise e => Raise e
       end
     else Ok VNone)
  with
  | Ok san_v =>
      Ok (VDict [("ply", VInt (idx + 1));
                 ("uci", VStr (move_uci move));
                 ("san", san_v);
                 ("side", VStr (if idx mod 2 =? 0
                                then "white" else "black"))])
  | Raise e => Raise e
  end.

(** The comprehension shared by [create_or_reset_game] and
    [list_moves_detailed]:
    [[_format_move_detail(idx, move, _GAME.san_history)
      for idx, move in enumerate(_GAME.board.move_stack)]]. *)
Definition format_all_moves : M GameState (list value) :=
  stack <- gets stack_of ;;
  map_m (fun '(idx, move) =>
           history <- gets san_history ;;
           lift (_format_move_detail idx move history))
        (py_enumerate stack).

Definition create_or_reset_game : M GameState value :=
  reset ;;
  st <- status ;;
  moves <- all_moves ;;
  details <- format_all_moves ;;
  ret (VDict [("ok", VBool true);
              ("status", VDict st);
              ("moves", VList (map VStr moves));
              ("moves_detailed", VList details)]).

Definition get_status : M GameState value :=
  st <- status ;;
  ret (VDict st).

Definition add_move (uci : string) : M GameState value :=
  move_outcome <- add_move_uci uci ;;
  let response :=
    [("accepted", VBool (truthy (dict_get_default "accepted" move_outcome)))]
  in
  st <- status ;;
  let response := dict_set "status" (VDict st) response in
  accepted <- lift (dict_getitem "accepted" response) ;;
  if negb (truthy accepted) then
    response <-
      (if dict_mem "reason" move_outcome then
         reason <- lift (dict_getitem "reason" move_outcome) ;;
         ret (dict_set "reason" reason response)
       else ret response) ;;
    response <-
      (if dict_mem "expected_turn" move_outcome then
         expected <- lift (dict_getitem "expected_turn" move_outcome) ;;
         ret (dict_set "expected_turn" expected response)
       else ret response) ;;
    ret (VDict response)
  else
    moves <- all_moves ;;
    let response := dict_set "moves" (VList (map VStr moves)) response in
    details <- all_moves_detailed ;;
    let response := dict_set "moves_detailed" (VList details) response in
    ret (VDict response).

Definition is_legal (uci : string) : M GameState value :=
  r <- is_move_legal uci ;;
  ret (VDict r).

Definition list_moves : M GameState value :=
  moves <- all_moves ;;
  ret (VList (map VStr moves)).

Definition list_moves_detailed : M GameState value :=
  details <- format_all_moves ;;
  ret (VList details).

Definition last_moves (n : Z) : M GameState value :=
  moves <- last_n_moves n ;;
  ret (VList (map VStr moves)).

Definition last_moves_detailed (n : Z) : M GameState value :=
  if n <=? 0 then ret (VList [])
  else
    len <- gets (fun g => py_len (stack_of g)) ;;
    let start := Z.max 0 (len - n) in
    stop <- gets (fun g => py_len (stack_of g)) ;;
    details <-
      map_m (fun idx =>
               stack <- gets stack_of ;;
               move <- lift (py_getitem stack idx) ;;
               history <- gets san_history ;;
               lift (_format_move_detail idx move history))
            (py_range start stop) ;;
    ret (VList details).

Definition board_ascii : M GameState value :=
  s <- ascii_board ;;
  ret (VStr s).

(** One invocation of a tool, with its parameters. *)
Inductive Call : Type :=
| CreateOrResetGame
| GetStatus
| AddMove (uci : string)
| IsLegal (uci : string)
| ListMoves
| ListMovesDetailed
| LastMoves (n : Z)
| LastMovesDetailed (n : Z)
| BoardAscii.

Definition call_tool (c : Call) : M GameState value :=
  match c with
  | CreateOrResetGame => create_or_reset_game
  | GetStatus => get_status
  | AddMove uci => add_move uci
  | IsLegal uci => is_legal uci
  | ListMoves => list_moves
  | ListMovesDetailed => list_moves_detailed
  | LastMoves n => last_moves n
  | LastMovesDetailed n => last_moves_detailed n
  | BoardAscii => board_ascii
  end.

End Session.

(** ** Notions the properties are stated with *)

(** The Move Record object [{ply, uci, san, side}] for the move at
    0-based position [idx]. *)
Definition move_record (idx : Z) (uci : string) (san_v : value) : value :=
  VDict [("ply", VInt (idx + 1));
         ("uci", VStr uci);
         ("san", san_v);
         ("side", VStr (if Z.even idx then "white" else "black"))].

(** An optional string as a JSON value. *)
Definition opt_str (o : option string) : value :=
  match o with Some s => VStr s | None => VNone end.

(** The record for one item [(idx, move)] of the enumerated move stack,
    read against the notation cache [h]. *)
Definition item_record {E : RulesEngine} (h : list string)
    (item : Z * Move) : value :=
  move_record (fst item) (move_uci (snd item))
    (opt_str (nth_error h (Z.to_nat (fst item)))).

(** The Move Records of a whole session, oldest first: one per entry of
    the move stack, with the cached notation of the same index. *)
Definition records_from {E : RulesEngine} (h : list string) (k : nat)
    (stack : list Move) : list value :=
  map (fun '(i, m) =>
         move_record (Z.of_nat i) (move_uci m) (opt_str (nth_error h i)))
      (combine (seq k (List.length stack)) stack).

Definition records {E : RulesEngine} (g : GameState) : list value :=
  records_from (san_history g) 0 (stack_of g).

(** The last [k] elements of a list (all of it when [k] exceeds its
    length). *)
Definition suffix {A : Type} (k : nat) (l : list A) : list A :=
  skipn (List.length l - k) l.

(** A string read as whitespace-delimited fields: whitespace may lead,
    separate and trail; a field is a non-empty run without whitespace. *)
Fixpoint no_space (s : string) : bool :=
  match s with
  | EmptyString => true
  | String c s' => negb (is_space c) && no_space s'
  end.

Definition is_field (f : string) : Prop :=
  str_empty f = false /\ no_space f = true.

Inductive fields_of : string -> list string -> Prop :=
| fields_none : fields_of "" []
| fields_last (f : string) :
    is_field f -> fields_of f [f]
| fields_next (f : string) (c : ascii) (rest : string) (fs : list string) :
    is_field f -> is_space c = true -> fields_of rest fs ->
    fields_of (f ++ String c rest)%string (f :: fs)
| fields_skip (c : ascii) (rest : string) (fs : list string) :
    is_space c = true -> fields_of rest fs ->
    fields_of (String c rest) fs.

(** The last element of a list, if any. *)
Definition last_of {A : Type} (l : list A) : option A :=
  last (map Some l) None.

(** The status object of §4.1, field by field, for a given state. *)
Definition status_value {E : RulesEngine} (g : GameState) : dict :=
  let parts := py_split (fen (board g)) in
  [("fen", VStr (fen (board g)));
   ("side_to_move", VStr (if turn (board g) then "white" else "black"));
   ("fullmove_number", VInt (fullmove_number (board g)));
   ("halfmove_clock", VInt (halfmove_clock (board g)));
   ("ply_count", VInt (py_len (stack_of g)));
   ("castling_rights", opt_str (nth_error parts 2));
   ("en_passant_square", opt_str (nth_error parts 3));
   ("last_move_uci",
    match last_of (stack_of g) with
    | Some m => VStr (move_uci m)
    | None => VNone
    end);
   ("last_move_san", opt_str (last_of (san_history g)));
   ("who_moved_last",
    match last_of (stack_of g) with
    | Some _ =>
        VStr (if Z.even (py_len (stack_of g) - 1) then "white" else "black")
    | None => VNone
    end);
   ("is_check", VBool (is_check (board g)));
   ("is_game_over", VBool (is_game_over (board g)));
   ("result",
    if is_game_over (board g) then VStr (board_result (board g)) else VNone);
   ("pieces",
    VDict (fold_left
             (fun mapping '(square, piece) =>
                dict_set (square_name square) (VStr (piece_symbol piece))
                  mapping)
             (piece_map (board g)) []))].

(** The parity law for the record at 0-based position [i] of a view:
    its ply is [i + 1], and its side is white exactly for even [i]. *)
Definition side_by_index (i : nat) (r : value) : Prop :=
  exists d,
    r = VDict d /\
    dict_get "ply" d = Some (VInt (Z.of_nat i + 1)) /\
    (dict_get "side" d = Some (VStr "white") <-> Nat.even i = true) /\
    (dict_get "side" d = Some (VStr "black") <-> Nat.even i = false).

(** The same law read off the record alone: white exactly for an odd
    ply. *)
Definition side_by_ply (r : value) : Prop :=
  exists d p,
    r = VDict d /\
    dict_get "ply" d = Some (VInt p) /\
    (dict_get "side" d = Some (VStr "white") <-> Z.odd p = true) /\
    (dict_get "side" d = Some (VStr "black") <-> Z.even p = true).

(** Whether a tool response reports an accepted move. *)
Definition accepted (response : value) : bool :=
  match response with
  | VDict d => match dict_get "accepted" d with
               | Some (VBool true) => true
               | _ => false
               end
  | _ => false
  end.

(** The tools that only read the session: all but
    [create_or_reset_game] and [add_move]. *)
Definition is_query (c : Call) : bool :=
  match c with
  | CreateOrResetGame | AddMove _ => false
  | _ => true
  end.

(** The [uci] entry of a Move Record. *)
Definition record_uci (r : value) : option value :=
  match r with
  | VDict d => dict_get "uci" d
  | _ => None
  end.

(** A session driven by a sequence of tool calls.  Next to the state it
    keeps the number of moves applied since the last reset; a call that
    raises ends the run with [None]. *)
Fixpoint run_calls {E : RulesEngine} (calls : list Call) (g : GameState)
    (applied : Z) : option (GameState * Z) :=
  match calls with
  | [] => Some (g, applied)
  | c :: calls' =>
      match call_tool c g with
      | (Ok response, g') =>
          let applied' :=
            match c with
            | CreateOrResetGame => 0
            | AddMove _ => if accepted response then applied + 1 else applied
            | _ => applied
            end in
          run_calls calls' g' applied'
      | (Raise _, _) => None
      end
  end.

(** The states the server can be in: those a sequence of tool calls
    leads to from the session created at start-up. *)
Definition reachable {E : RulesEngine} (g : GameState) : Prop :=
  exists calls applied, run_calls calls GameState_new 0 = Some (g, applied).

(** The history is in step with the board: one cached notation per move
    on the stack. *)
Definition in_step {E : RulesEngine} (g : GameState) : Prop :=
  List.length (san_history g) = List.length (stack_of g).

(** ** A small rules engine

    An instance of the interface to run the session on: moves are UCI
    strings, a board is the list of moves played, and the legal moves
    come from a two-move opening book for each side.  [parse]
    follows the checks of [chess.Move.from_uci]. *)

Module Book.

Definition is_file (c : ascii) : bool :=
  let n := N_of_ascii c in ((97 <=? n) && (n <=? 104))%N.

Definition is_rank (c : ascii) : bool :=
  let n := N_of_ascii c in ((49 <=? n) && (n <=? 56))%N.

Definition is_promotion (c : ascii) : bool :=
  existsb (Ascii.eqb c) ["p"; "n"; "b"; "r"; "q"; "k"]%char.

Definition quoted (s : string) : string := ("'" ++ s ++ "'")%string.

Definition parse (uci : string) : result string :=
  if String.eqb uci "0000" then Ok uci
  else
    match uci with
    | String f1 (String r1 (String f2 (String r2 rest))) =>
        let squares := is_file f1 && is_rank r1 && is_file f2 && is_rank r2 in
        let differ := negb (Ascii.eqb f1 f2 && Ascii.eqb r1 r2) in
        let check (promotion_ok : bool) : result string :=
          if squares && promotion_ok then
            if differ then Ok uci
            else Raise ("invalid uci (use 0000 for null moves): "
                        ++ quoted uci)%string
          else Raise ("invalid uci: " ++ quoted uci)%string in
        match rest with
        | EmptyString => check true
        | String p EmptyString => check (is_promotion p)
        | _ => Raise ("expected uci string to be of length 4 or 5: "
                      ++ quoted uci)%string
        end
    | _ => Raise ("expected uci string to be of length 4 or 5: "
                  ++ quoted uci)%string
    end.

Definition white_to_move (b : list string) : bool :=
  Nat.even (List.length b).

Definition book (b : list string) : list (string * string) :=
  if white_to_move b
  then [("e2e4", "e4"); ("g1f3", "Nf3")]
  else [("e7e5", "e5"); ("b8c6", "Nc6")].

Definition played (b : list string) (m : string) : bool :=
  existsb (String.eqb m) b.

Definition legal (b : list string) (m : string) : bool :=
  negb (played b m) && existsb (fun e => String.eqb m (fst e)) (book b).

Definition notation (b : list string) (m : string) : string :=
  if legal b m then
    match find (fun e => String.eqb m (fst e)) (book b) with
    | Some e => snd e
    | None => "--"
    end
  else "--".

(** The engine, given how a position with moves played is serialized. *)
Definition engine (serialize : list string -> string) : RulesEngine := {|
  Board := list string;
  Move := string;
  Square := string;
  Piece := string;
  new_board := [];
  board_reset := fun _ => [];
  from_uci := parse;
  move_uci := fun m => m;
  legal_moves := legal;
  san := notation;
  push := fun b m => b ++ [m];
  move_stack := fun b => b;
  fen := fun b => match b with [] => STARTING_FEN | _ => serialize b end;
  turn := white_to_move;
  fullmove_number := fun b => 1 + Z.of_nat (List.length b) / 2;
  halfmove_clock := fun _ => 0;
  is_check := fun _ => false;
  is_game_over := fun _ => false;
  board_result := fun _ => "*";
  piece_map := fun _ => [("a2", "P"); ("e1", "K")];
  board_str := fun _ => "";
  square_name := fun s => s;
  piece_symbol := fun p => p
|}.

(** A serializer that keeps the six fields apart, and one that cuts the
    string after the side to move. *)
Definition six_fields (b : list string) : string :=
  ("8/8/8/8/8/8/8/8 " ++ (if white_to_move b then "w" else "b")
   ++ " KQkq - 0 1")%string.

Definition two_fields (b : list string) : string :=
  ("8/8/8/8/8/8/8/8 " ++ (if white_to_move b then "w" else "b"))%string.

(** An engine whose [push] stores a castling move in its normalised
    form, king to its destination, as [chess.Board.push] does: the
    king-takes-rook descriptor [e1h1] is legal and is stored as
    [e1g1]. *)
Definition normalise (m : string) : string :=
  if String.eqb m "e1h1" then "e1g1" else m.

Definition castling : RulesEngine := {|
  Board := list string;
  Move := string;
  Square := string;
  Piece := string;
  new_board := [];
  board_reset := fun _ => [];
  from_uci := parse;
  move_uci := fun m => m;
  legal_moves := fun b m => String.eqb m "e1h1" || legal b m;
  san := fun b m => if String.eqb m "e1h1" then "O-O" else notation b m;
  push := fun b m => b ++ [normalise m];
  move_stack := fun b => b;
  fen := fun b => match b with [] => STARTING_FEN | _ => six_fields b end;
  turn := white_to_move;
  fullmove_number := fun b => 1 + Z.of_nat (List.length b) / 2;
  halfmove_clock := fun _ => 0;
  is_check := fun _ => false;
  is_game_over := fun _ => false;
  board_result := fun _ => "*";
  piece_map := fun _ => [("a2", "P"); ("e1", "K")];
  board_str := fun _ => "";
  square_name := fun s => s;
  piece_symbol := fun p => p
|}.

(** Two engines, and a session of each after 1. e4 e5. *)
Definition standard : RulesEngine := engine six_fields.
Definition truncated : RulesEngine := engine two_fields.

Definition after_e4_e5 : @GameState standard :=
  @Build_GameState standard ["e2e4"; "e7e5"] ["e4"; "e5"].

Definition truncated_after_e4 : @GameState truncated :=
  @Build_GameState truncated ["e2e4"] ["e4"].

End Book.

(** ** Running monadic code *)

Section Run.
Context {S : Type}.

Lemma bind_ok {A B : Type} (m : M S A) (f : A -> M S B) s a s' :
  m s = (Ok a, s') -> bind m f s = f a s'.
Proof. intros H. unfold bind. now rewrite H. Qed.

Lemma bind_raise {A B : Type} (m : M S A) (f : A -> M S B) s e s' :
  m s = (Raise e, s') -> bind m f s = (Raise e, s').
Proof. intros H. unfold bind. now rewrite H. Qed.

Lemma bind_gets {A B : Type} (h : S -> A) (f : A -> M S B) s :
  bind (gets h) f s = f (h s) s.
Proof. reflexivity. Qed.

Lemma bind_modify {B : Type} (h : S -> S) (f : unit -> M S B) s :
  bind (modify h) f s = f tt (h s).
Proof. reflexivity. Qed.

Lemma bind_ret {A B : Type} (a : A) (f : A -> M S B) s :
  bind (ret a) f s = f a s.
Proof. reflexivity. Qed.

Lemma bind_lift_ok {A B : Type} (a : A) (f : A -> M S B) s :
  bind (lift (Ok a)) f s = f a s.
Proof. reflexivity. Qed.

(** A loop whose body appends one element computed from the item,
    without touching the state. *)
Lemma for_each_append {A B : Type} (F : A -> B)
    (body : list B -> A -> M S (list B)) s :
  forall (l : list A) (acc : list B),
    (forall acc' a, In a l -> body acc' a s = (Ok (acc' ++ [F a]), s)) ->
    for_each l acc body s = (Ok (acc ++ map F l), s).
Proof.
  induction l as [|a l IH]; intros acc Hbody; simpl.
  - unfold ret. now rewrite app_nil_r.
  - erewrite bind_ok by (apply Hbody; now left).
    rewrite IH by (intros; apply Hbody; now right).
    now rewrite <- app_assoc.
Qed.

(** A loop whose body is a pure update of the accumulator. *)
Lemma for_each_fold {A B : Type} (F : B -> A -> B)
    (body : B -> A -> M S B) s :
  (forall acc a, body acc a s = (Ok (F acc a), s)) ->
  forall (l : list A) (acc : B),
    for_each l acc body s = (Ok (fold_left F l acc), s).
Proof.
  intros Hbody. induction l as [|a l IH]; intros acc; simpl.
  - reflexivity.
  - erewrite bind_ok by apply Hbody. apply IH.
Qed.

Lemma map_m_pure {A B : Type} (F : A -> B) (f : A -> M S B) s :
  forall l : list A,
    (forall a, In a l -> f a s = (Ok (F a), s)) ->
    map_m f l s = (Ok (map F l), s).
Proof.
  induction l as [|a l IH]; intros Hf; simpl.
  - reflexivity.
  - erewrite bind_ok by (apply Hf; now left).
    erewrite bind_ok by (apply IH; intros; apply Hf; now right).
    reflexivity.
Qed.
End Run.

(** ** Python lists and strings *)

Lemma py_len_nonneg {A : Type} (l : list A) : 0 <= py_len l.
Proof. unfold py_len. lia. Qed.

Lemma py_len_app {A : Type} (l l' : list A) :
  py_len (l ++ l') = py_len l + py_len l'.
Proof. unfold py_len. rewrite length_app. lia. Qed.

Lemma py_getitem_nth {A : Type} (l : list A) (i : Z) (a : A) :
  0 <= i -> nth_error l (Z.to_nat i) = Some a -> py_getitem l i = Ok a.
Proof.
  intros Hi Hnth. unfold py_getitem.
  destruct (i <? 0) eqn:Hneg; [apply Z.ltb_lt in Hneg; lia|].
  rewrite Hneg. now rewrite Hnth.
Qed.

Lemma py_getitem_in_range {A : Type} (l : list A) (i : Z) :
  0 <= i < py_len l ->
  exists a, nth_error l (Z.to_nat i) = Some a /\ py_getitem l i = Ok a.
Proof.
  intros [Hi Hlt].
  destruct (nth_error l (Z.to_nat i)) as [a|] eqn:Hnth.
  - exists a. split; [reflexivity | now apply py_getitem_nth].
  - apply nth_error_None in Hnth. unfold py_len in Hlt. lia.
Qed.

Lemma py_getitem_last {A : Type} (l : list A) (a : A) :
  py_getitem (l ++ [a]) (-1) = Ok a.
Proof.
  unfold py_getitem. change (-1 <? 0) with true. cbv iota.
  rewrite py_len_app. change (py_len [a]) with 1.
  pose proof (py_len_nonneg l) as Hlen.
  destruct (py_len l + 1 + -1 <? 0) eqn:Hneg;
    [apply Z.ltb_lt in Hneg; lia|].
  replace (Z.to_nat (py_len l + 1 + -1)) with (List.length l)
    by (unfold py_len; lia).
  rewrite nth_error_app2 by lia. now rewrite Nat.sub_diag.
Qed.

Lemma nonempty_snoc {A : Type} (l : list A) :
  nonempty l = true -> exists l' a, l = l' ++ [a].
Proof.
  destruct l as [|x l]; [discriminate|]. intros _.
  destruct (exists_last (l := x :: l)) as (l' & a & H); [discriminate|].
  now exists l', a.
Qed.

Lemma parity_test (idx : Z) : (idx mod 2 =? 0) = Z.even idx.
Proof. rewrite Zmod_even. now destruct (Z.even idx). Qed.

Lemma nth_seq_skipn {A : Type} (d : A) :
  forall (s : nat) (l : list A),
    map (fun k => nth (s + k) l d) (seq 0 (List.length l - s)) = skipn s l.
Proof.
  induction s as [|s IH]; intros l.
  - rewrite Nat.sub_0_r. simpl.
    induction l as [|a l IHl]; [reflexivity|].
    simpl. f_equal. rewrite <- seq_shift, map_map. exact IHl.
  - destruct l as [|a l]; [reflexivity|].
    simpl. apply IH.
Qed.

Lemma range_nth_skipn {A : Type} (d : A) (l : list A) (start : Z) :
  0 <= start ->
  map (fun idx => nth (Z.to_nat idx) l d) (py_range start (py_len l))
  = skipn (Z.to_nat start) l.
Proof.
  intros Hstart. unfold py_range. rewrite map_map.
  rewrite <- (nth_seq_skipn d (Z.to_nat start) l).
  replace (Z.to_nat (py_len l - start))
    with (List.length l - Z.to_nat start)%nat by (unfold py_len; lia).
  apply map_ext. intros k. f_equal. lia.
Qed.

Lemma range_bounds (a b idx : Z) :
  In idx (py_range a b) -> a <= idx < b.
Proof.
  unfold py_range. rewrite in_map_iff. intros (k & <- & Hk).
  apply in_seq in Hk. lia.
Qed.

Lemma append_empty_r (s : string) : (s ++ "")%string = s.
Proof. induction s as [|c s IH]; simpl; [reflexivity | now rewrite IH]. Qed.

Lemma append_char_assoc (s : string) (c : ascii) (t : string) :
  ((s ++ String c "") ++ t)%string = (s ++ String c t)%string.
Proof. induction s as [|d s IH]; simpl; [reflexivity | now rewrite IH]. Qed.

Lemma no_space_snoc (s : string) (c : ascii) :
  no_space s = true -> is_space c = false ->
  no_space (s ++ String c "") = true.
Proof.
  intros Hs Hc. induction s as [|d s IH]; simpl in *.
  - now rewrite Hc.
  - apply andb_true_iff in Hs as [Hd Hs]. rewrite Hd. now apply IH.
Qed.

(** Reading a whitespace-free run extends the field being read. *)
Lemma split_from_run (f : string) :
  forall cur rest,
    no_space f = true ->
    split_from cur (f ++ rest) = split_from (cur ++ f) rest.
Proof.
  induction f as [|c f IH]; intros cur rest Hf; simpl in *.
  - now rewrite append_empty_r.
  - apply andb_true_iff in Hf as [Hc Hf].
    apply negb_true_iff in Hc. rewrite Hc.
    rewrite IH by assumption. now rewrite append_char_assoc.
Qed.

(** [str.split()] returns the fields of the string... *)
Lemma split_sound (s : string) (fs : list string) :
  fields_of s fs -> py_split s = fs.
Proof.
  unfold py_split.
  induction 1 as [|f [Hne Hf]|f c rest fs [Hne Hf] Hc _ IH|c rest fs Hc _ IH].
  - reflexivity.
  - rewrite <- (append_empty_r f) at 1.
    rewrite split_from_run by assumption. simpl. now rewrite Hne.
  - rewrite split_from_run by assumption. simpl.
    rewrite Hc, Hne. now rewrite IH.
  - simpl. now rewrite Hc.
Qed.

(** ... and every string has fields. *)
Lemma split_from_fields (s : string) :
  forall cur,
    no_space cur = true ->
    fields_of (cur ++ s) (split_from cur s).
Proof.
  induction s as [|c s IH]; intros cur Hcur; simpl.
  - rewrite append_empty_r.
    destruct (str_empty cur) eqn:Hemp.
    + destruct cur; [constructor | discriminate].
    + now apply fields_last.
  - destruct (is_space c) eqn:Hc.
    + destruct (str_empty cur) eqn:Hemp.
      * destruct cur; [|discriminate]. simpl.
        apply fields_skip; [assumption|]. now apply (IH "").
      * apply fields_next; [now split | assumption | now apply (IH "")].
    + rewrite <- append_char_assoc. apply IH. now apply no_space_snoc.
Qed.

Lemma split_complete (s : string) : fields_of s (py_split s).
Proof. now apply (split_from_fields s ""). Qed.

(** ** The methods, run *)

Section Methods.
Context {E : RulesEngine}.

Lemma last_of_snoc {A : Type} (l : list A) (a : A) :
  last_of (l ++ [a]) = Some a.
Proof. unfold last_of. rewrite map_app. simpl. apply last_last. Qed.

(** [f(l[-1]) if l else None] *)
Lemma guarded_last {A : Type} (l : list A) (h : A -> value)
    (g : GameState) :
  (if nonempty l then x <- lift (py_getitem l (-1)) ;; ret (h x)
   else ret VNone) g
  = (Ok (match last_of l with Some x => h x | None => VNone end), g).
Proof.
  destruct (nonempty l) eqn:Hne.
  - apply nonempty_snoc in Hne as (l' & a & ->).
    rewrite py_getitem_last, last_of_snoc. reflexivity.
  - destruct l; [reflexivity | discriminate].
Qed.

(** [parts[k] if len(parts) >= k + 1 else None] *)
Lemma guarded_field (parts : list string) (n k : Z) (g : GameState) :
  0 <= k -> n = k + 1 ->
  (if n <=? py_len parts then s <- lift (py_getitem parts k) ;; ret (VStr s)
   else ret VNone) g
  = (Ok (opt_str (nth_error parts (Z.to_nat k))), g).
Proof.
  intros Hk ->. destruct (k + 1 <=? py_len parts) eqn:Hle.
  - apply Z.leb_le in Hle.
    destruct (py_getitem_in_range parts k) as (s & Hnth & Hget); [lia|].
    rewrite Hget, Hnth. reflexivity.
  - apply Z.leb_gt in Hle.
    replace (nth_error parts (Z.to_nat k)) with (@None string);
      [reflexivity|].
    symmetry. apply nth_error_None. unfold py_len in Hle. lia.
Qed.

Lemma san_at_run (idx : Z) (g : GameState) :
  0 <= idx ->
  san_at idx g
  = (Ok (opt_str (nth_error (san_history g) (Z.to_nat idx))), g).
Proof.
  intros Hidx. unfold san_at. rewrite bind_gets.
  destruct (idx <? py_len (san_history g)) eqn:Hlt.
  - apply Z.ltb_lt in Hlt. rewrite bind_gets.
    destruct (py_getitem_in_range (san_history g) idx) as (s & Hnth & Hget);
      [lia|].
    rewrite Hget, Hnth. reflexivity.
  - apply Z.ltb_ge in Hlt.
    replace (nth_error (san_history g) (Z.to_nat idx)) with (@None string);
      [reflexivity|].
    symmetry. apply nth_error_None. unfold py_len in Hlt. lia.
Qed.

Lemma format_move_detail_ok (idx : Z) (m : Move) (h : list string) :
  0 <= idx ->
  _format_move_detail idx m h
  = Ok (move_record idx (move_uci m) (opt_str (nth_error h (Z.to_nat idx)))).
Proof.
  intros Hidx. unfold _format_move_detail, move_record.
  rewrite parity_test.
  destruct (idx <? py_len h) eqn:Hlt.
  - apply Z.ltb_lt in Hlt.
    destruct (py_getitem_in_range h idx) as (s & Hnth & Hget); [lia|].
    rewrite Hget, Hnth. reflexivity.
  - apply Z.ltb_ge in Hlt.
    replace (nth_error h (Z.to_nat idx)) with (@None string);
      [reflexivity|].
    symmetry. apply nth_error_None. unfold py_len in Hlt. lia.
Qed.

Lemma enumerate_records (h : list string) :
  forall (stack : list Move) (k : nat),
    map (item_record h) (enumerate_from (Z.of_nat k) stack)
    = records_from h k stack.
Proof.
  induction stack as [|m stack IH]; intros k; [reflexivity|].
  unfold records_from. simpl. unfold item_record at 1. simpl.
  rewrite Nat2Z.id. f_equal.
  replace (Z.of_nat k + 1) with (Z.of_nat (S k)) by lia.
  apply IH.
Qed.

Lemma enumerate_from_lower {A : Type} :
  forall (l : list A) (k idx : Z) (a : A),
    In (idx, a) (enumerate_from k l) -> k <= idx.
Proof.
  induction l as [|x l IH]; intros k idx a; simpl; [tauto|].
  intros [Heq | Hin].
  - inversion Heq. lia.
  - apply IH in Hin. lia.
Qed.

Lemma records_length (g : GameState) :
  List.length (records g) = List.length (stack_of g).
Proof.
  unfold records, records_from.
  rewrite length_map, length_combine, length_seq. lia.
Qed.

Lemma records_from_nth (h : list string) :
  forall (stack : list Move) (k i : nat) (m : Move),
    nth_error stack i = Some m ->
    nth i (records_from h k stack) VNone
    = move_record (Z.of_nat (k + i)) (move_uci m)
        (opt_str (nth_error h (k + i))).
Proof.
  induction stack as [|x stack IH]; intros k i m Hnth.
  - destruct i; discriminate.
  - destruct i as [|i]; simpl in Hnth.
    + inversion Hnth; subst. unfold records_from. simpl.
      now rewrite Nat.add_0_r.
    + unfold records_from. simpl.
      replace (k + S i)%nat with (S k + i)%nat by lia.
      apply (IH (S k) i m Hnth).
Qed.

Lemma all_moves_run (g : GameState) :
  all_moves g = (Ok (map move_uci (stack_of g)), g).
Proof. reflexivity. Qed.

Lemma all_moves_detailed_run (g : GameState) :
  all_moves_detailed g = (Ok (records g), g).
Proof.
  unfold all_moves_detailed. rewrite bind_gets.
  rewrite (for_each_append (item_record (san_history g))).
  - exact (f_equal (fun r => (Ok r, g))
             (enumerate_records (san_history g) (stack_of g) 0)).
  - intros acc [idx m] Hin.
    apply enumerate_from_lower in Hin.
    erewrite bind_ok by (apply san_at_run; exact Hin).
    unfold item_record, move_record. simpl.
    now rewrite parity_test.
Qed.

Lemma format_all_moves_run (g : GameState) :
  format_all_moves g = (Ok (records g), g).
Proof.
  unfold format_all_moves. rewrite bind_gets.
  rewrite (map_m_pure (item_record (san_history g))).
  - exact (f_equal (fun r => (Ok r, g))
             (enumerate_records (san_history g) (stack_of g) 0)).
  - intros [idx m] Hin.
    apply enumerate_from_lower in Hin.
    rewrite bind_gets. unfold lift.
    now rewrite format_move_detail_ok.
Qed.

(** The record for index [idx], looked up through the move stack. *)
Lemma indexed_record (g : GameState) (idx : Z) :
  0 <= idx < py_len (stack_of g) ->
  exists m,
    py_getitem (stack_of g) idx = Ok m /\
    move_record idx (move_uci m)
      (opt_str (nth_error (san_history g) (Z.to_nat idx)))
    = nth (Z.to_nat idx) (records g) VNone.
Proof.
  intros Hidx.
  destruct (py_getitem_in_range (stack_of g) idx Hidx) as (m & Hnth & Hget).
  exists m. split; [exact Hget|].
  unfold records.
  rewrite (records_from_nth (san_history g) (stack_of g) 0 _ m Hnth).
  simpl. now rewrite Z2Nat.id by lia.
Qed.
End Methods.

Section Views.
Context {E : RulesEngine}.

Lemma records_py_len (g : GameState) :
  py_len (records g) = py_len (stack_of g).
Proof. unfold py_len. now rewrite records_length. Qed.

Lemma last_n_moves_run (n : Z) (g : GameState) :
  0 < n ->
  last_n_moves n g
  = (Ok (skipn (Z.to_nat (Z.max 0 (py_len (stack_of g) - n)))
           (map move_uci (stack_of g))), g).
Proof.
  intros Hn. unfold last_n_moves.
  destruct (n <=? 0) eqn:Hle; [apply Z.leb_le in Hle; lia|].
  rewrite bind_gets. unfold ret, py_slice_from.
  destruct (- n <? 0) eqn:Hneg; [|apply Z.ltb_ge in Hneg; lia].
  now rewrite skipn_map.
Qed.

Lemma last_n_moves_detailed_run (n : Z) (g : GameState) :
  0 < n ->
  last_n_moves_detailed n g
  = (Ok (skipn (Z.to_nat (Z.max 0 (py_len (stack_of g) - n))) (records g)),
     g).
Proof.
  intros Hn. unfold last_n_moves_detailed.
  destruct (n <=? 0) eqn:Hle; [apply Z.leb_le in Hle; lia|].
  rewrite bind_gets. cbv zeta. rewrite bind_gets.
  rewrite (for_each_append (fun idx => nth (Z.to_nat idx) (records g) VNone)).
  - simpl app. rewrite <- (records_py_len g).
    rewrite range_nth_skipn by lia. reflexivity.
  - intros acc idx Hin. apply range_bounds in Hin.
    destruct (indexed_record g idx) as (m & Hget & Hrec); [lia|].
    rewrite bind_gets, Hget, bind_lift_ok.
    erewrite bind_ok by (apply san_at_run; lia).
    unfold ret. rewrite <- Hrec. unfold move_record.
    now rewrite parity_test.
Qed.

Lemma last_moves_detailed_run (n : Z) (g : GameState) :
  0 < n ->
  last_moves_detailed n g
  = (Ok (VList (skipn (Z.to_nat (Z.max 0 (py_len (stack_of g) - n)))
                  (records g))), g).
Proof.
  intros Hn. unfold last_moves_detailed.
  destruct (n <=? 0) eqn:Hle; [apply Z.leb_le in Hle; lia|].
  rewrite bind_gets. cbv zeta. rewrite bind_gets.
  erewrite bind_ok.
  2:{ apply (map_m_pure (fun idx => nth (Z.to_nat idx) (records g) VNone)).
      intros idx Hin. apply range_bounds in Hin.
      destruct (indexed_record g idx) as (m & Hget & Hrec); [lia|].
      rewrite bind_gets, Hget, bind_lift_ok, bind_gets.
      unfold lift. rewrite format_move_detail_ok by lia.
      now rewrite Hrec. }
  unfold ret. rewrite <- (records_py_len g).
  rewrite range_nth_skipn by lia. reflexivity.
Qed.

(** Dropping all but the last [min n len] elements. *)
Lemma skipn_suffix {A : Type} (l : list A) (n : Z) :
  0 < n ->
  skipn (Z.to_nat (Z.max 0 (py_len l - n))) l
  = suffix (Z.to_nat (Z.min n (py_len l))) l.
Proof.
  intros Hn. unfold suffix, py_len. f_equal. lia.
Qed.

Lemma suffix_all {A : Type} (l : list A) (k : nat) :
  (List.length l <= k)%nat -> suffix k l = l.
Proof.
  intros Hk. unfold suffix.
  replace (List.length l - k)%nat with 0%nat by lia. reflexivity.
Qed.

Lemma suffix_length {A : Type} (l : list A) (k : nat) :
  List.length (suffix k l) = Nat.min k (List.length l).
Proof. unfold suffix. rewrite length_skipn. lia. Qed.

Lemma pieces_map_run (g : GameState) :
  pieces_map g
  = (Ok (fold_left
           (fun mapping '(square, piece) =>
              dict_set (square_name square) (VStr (piece_symbol piece))
                mapping)
           (piece_map (board g)) []), g).
Proof.
  unfold pieces_map. rewrite bind_gets.
  apply for_each_fold. intros acc [square piece]. reflexivity.
Qed.

Lemma status_run (g : GameState) :
  status g = (Ok (status_value g), g).
Proof.
  unfold status. rewrite bind_gets. cbv zeta. rewrite bind_gets.
  erewrite bind_ok by apply guarded_last.
  rewrite bind_gets.
  erewrite bind_ok by apply guarded_last.
  rewrite !bind_gets.
  erewrite bind_ok by (apply guarded_field; [lia | reflexivity]).
  erewrite bind_ok by (apply guarded_field; [lia | reflexivity]).
  rewrite bind_gets.
  erewrite bind_ok with
    (a := match last_of (stack_of g) with
          | Some _ =>
              VStr (if Z.even (py_len (stack_of g) - 1)
                    then "white" else "black")
          | None => VNone
          end).
  2:{ destruct (nonempty (stack_of g)) eqn:Hne.
      - apply nonempty_snoc in Hne as (l' & a & Heq).
        rewrite Heq at 1. rewrite last_of_snoc.
        rewrite bind_gets. unfold ret. now rewrite parity_test.
      - destruct (stack_of g); [reflexivity | discriminate]. }
  rewrite !bind_gets.
  erewrite bind_ok with
    (a := if is_game_over (board g)
          then VStr (board_result (board g)) else VNone)
    by (destruct (is_game_over (board g)); reflexivity).
  erewrite bind_ok by apply pieces_map_run.
  unfold ret, status_value.
  change (Z.to_nat 2) with 2%nat. change (Z.to_nat 3) with 3%nat.
  do 9 f_equal.
  now destruct (last_of (san_history g)).
Qed.
End Views.

(** ** The mutators and the tools, run *)

Section Tools.
Context {E : RulesEngine}.

Lemma reset_run (g : GameState) :
  reset g
  = (Ok tt, {| board := board_reset (board g); san_history := [] |}).
Proof. reflexivity. Qed.

Lemma add_move_uci_parse_error (uci exc : string) (g : GameState) :
  from_uci uci = Raise exc ->
  add_move_uci uci g
  = (Ok [("accepted", VBool false);
         ("reason", VStr "parse_error");
         ("parse_error", VStr exc)], g).
Proof. intros H. unfold add_move_uci. now rewrite H. Qed.

Lemma add_move_uci_illegal (uci : string) (m : Move) (g : GameState) :
  from_uci uci = Ok m ->
  legal_moves (board g) m = false ->
  add_move_uci uci g
  = (Ok [("accepted", VBool false);
         ("reason", VStr "illegal");
         ("expected_turn",
          VStr (if turn (board g) then "white" else "black"))], g).
Proof.
  intros Hparse Hlegal. unfold add_move_uci.
  rewrite Hparse, bind_gets, Hlegal. reflexivity.
Qed.

Lemma add_move_uci_accepted (uci : string) (m : Move) (g : GameState) :
  from_uci uci = Ok m ->
  legal_moves (board g) m = true ->
  add_move_uci uci g
  = (Ok [("accepted", VBool true)],
     {| board := push (board g) m;
        san_history := san_history g ++ [san (board g) m] |}).
Proof.
  intros Hparse Hlegal. unfold add_move_uci.
  rewrite Hparse, bind_gets, Hlegal. reflexivity.
Qed.

Lemma is_move_legal_run (uci : string) (g : GameState) :
  is_move_legal uci g
  = (Ok (match from_uci uci with
         | Raise exc => [("parse_error", VStr exc); ("legal", VBool false)]
         | Ok m => [("legal", VBool (legal_moves (board g) m))]
         end), g).
Proof. unfold is_move_legal. now destruct (from_uci uci). Qed.

Lemma create_or_reset_game_run (g : GameState) :
  let g' := {| board := board_reset (board g); san_history := [] |} in
  create_or_reset_game g
  = (Ok (VDict [("ok", VBool true);
                ("status", VDict (status_value g'));
                ("moves", VList (map VStr (map move_uci (stack_of g'))));
                ("moves_detailed", VList (records g'))]), g').
Proof.
  intros g'. unfold create_or_reset_game.
  erewrite bind_ok by apply reset_run.
  erewrite bind_ok by apply status_run.
  erewrite bind_ok by apply all_moves_run.
  erewrite bind_ok by apply format_all_moves_run.
  reflexivity.
Qed.

Lemma add_move_parse_error (uci exc : string) (g : GameState) :
  from_uci uci = Raise exc ->
  add_move uci g
  = (Ok (VDict [("accepted", VBool false);
                ("status", VDict (status_value g));
                ("reason", VStr "parse_error")]), g).
Proof.
  intros Hparse. unfold add_move.
  erewrite bind_ok by (apply add_move_uci_parse_error; exact Hparse).
  cbv zeta.
  erewrite bind_ok by apply status_run.
  reflexivity.
Qed.

Lemma add_move_illegal (uci : string) (m : Move) (g : GameState) :
  from_uci uci = Ok m ->
  legal_moves (board g) m = false ->
  add_move uci g
  = (Ok (VDict [("accepted", VBool false);
                ("status", VDict (status_value g));
                ("reason", VStr "illegal");
                ("expected_turn",
                 VStr (if turn (board g) then "white" else "black"))]), g).
Proof.
  intros Hparse Hlegal. unfold add_move.
  erewrite bind_ok by (apply (add_move_uci_illegal uci m); assumption).
  cbv zeta.
  erewrite bind_ok by apply status_run.
  reflexivity.
Qed.

Lemma add_move_accepted (uci : string) (m : Move) (g : GameState) :
  from_uci uci = Ok m ->
  legal_moves (board g) m = true ->
  let g' := {| board := push (board g) m;
               san_history := san_history g ++ [san (board g) m] |} in
  add_move uci g
  = (Ok (VDict [("accepted", VBool true);
                ("status", VDict (status_value g'));
                ("moves", VList (map VStr (map move_uci (stack_of g'))));
                ("moves_detailed", VList (records g'))]), g').
Proof.
  intros Hparse Hlegal g'. unfold add_move.
  erewrite bind_ok by (apply (add_move_uci_accepted uci m); assumption).
  cbv zeta.
  erewrite bind_ok by apply status_run.
  erewrite bind_ok with (a := VBool true) by reflexivity.
  change (negb (truthy (VBool true))) with false. cbv iota.
  erewrite bind_ok by apply all_moves_run.
  erewrite bind_ok by apply all_moves_detailed_run.
  reflexivity.
Qed.

(** The three outcomes of [add_move], by what the engine says of the
    descriptor. *)
Lemma add_move_cases (uci : string) (g : GameState) :
  (exists r, add_move uci g = (Ok r, g) /\ accepted r = false
             /\ (forall m, from_uci uci = Ok m ->
                           legal_moves (board g) m = false)) \/
  (exists r m, from_uci uci = Ok m /\ legal_moves (board g) m = true /\
               add_move uci g
               = (Ok r, {| board := push (board g) m;
                           san_history :=
                             san_history g ++ [san (board g) m] |})
               /\ accepted r = true).
Proof.
  destruct (from_uci uci) as [m|exc] eqn:Hparse.
  - destruct (legal_moves (board g) m) eqn:Hlegal.
    + right. eexists. exists m. repeat split.
      * exact Hlegal.
      * apply add_move_accepted; assumption.
      * reflexivity.
    + left. eexists. split; [apply (add_move_illegal uci m); assumption|].
      split; [reflexivity|]. intros m' Hm'. now inversion Hm'; subst.
  - left. eexists. split; [now apply (add_move_parse_error uci exc)|].
    split; [reflexivity|]. intros m' Hm'. discriminate.
Qed.

(** Every tool but [create_or_reset_game] and [add_move] returns and
    leaves the session as it found it. *)
Lemma query_tool_frame (c : Call) (g : GameState) :
  match c with
  | CreateOrResetGame | AddMove _ => True
  | _ => exists r, call_tool c g = (Ok r, g)
  end.
Proof.
  destruct c as [| |uci|uci| | |n|n|]; simpl; try exact I.
  - unfold get_status. erewrite bind_ok by apply status_run.
    now eexists.
  - unfold is_legal. erewrite bind_ok by apply is_move_legal_run.
    now eexists.
  - unfold list_moves. erewrite bind_ok by apply all_moves_run.
    now eexists.
  - unfold list_moves_detailed.
    erewrite bind_ok by apply format_all_moves_run. now eexists.
  - unfold last_moves. destruct (Z.ltb_spec 0 n) as [Hn|Hn].
    + erewrite bind_ok by (apply last_n_moves_run; exact Hn). now eexists.
    + unfold last_n_moves. apply Z.leb_le in Hn. rewrite Hn. now eexists.
  - destruct (Z.ltb_spec 0 n) as [Hn|Hn].
    + rewrite last_moves_detailed_run by exact Hn. now eexists.
    + unfold last_moves_detailed. apply Z.leb_le in Hn. rewrite Hn.
      now eexists.
  - now eexists.
Qed.
End Tools.

(** ** The history stays in step with the board *)

Section Invariant.
Context {E : RulesEngine} {L : RulesEngineLaws E}.

Lemma in_step_new : in_step GameState_new.
Proof. unfold in_step, stack_of. simpl. now rewrite stack_new. Qed.

Lemma in_step_reset (g : GameState) :
  in_step {| board := board_reset (board g); san_history := [] |}.
Proof. unfold in_step, stack_of. simpl. now rewrite stack_reset. Qed.

Lemma in_step_push (g : GameState) (m : Move) (s : string) :
  in_step g ->
  in_step {| board := push (board g) m;
             san_history := san_history g ++ [s] |}.
Proof.
  unfold in_step, stack_of. simpl. intros H.
  destruct (stack_push (board g) m) as [stored Hpush].
  rewrite Hpush, !length_app, H. reflexivity.
Qed.

(** One tool call from a state in step: it returns, the state after it
    is in step, and the stack length follows the count of applied
    moves. *)
Lemma call_tool_in_step (c : Call) (g : GameState) :
  in_step g ->
  exists r g',
    call_tool c g = (Ok r, g') /\ in_step g' /\
    py_len (stack_of g')
    = match c with
      | CreateOrResetGame => 0
      | AddMove _ =>
          if accepted r then py_len (stack_of g) + 1
          else py_len (stack_of g)
      | _ => py_len (stack_of g)
      end.
Proof.
  intros Hg.
  destruct c as [| |uci|uci| | |n|n|];
    try (match goal with
         | |- context [call_tool ?c g] =>
             destruct (query_tool_frame c g) as (r & Hr);
             exists r, g; repeat split; assumption
         end).
  - eexists. eexists. split; [apply create_or_reset_game_run|].
    split; [apply in_step_reset|].
    unfold py_len, stack_of. simpl. now rewrite stack_reset.
  - destruct (add_move_cases uci g)
      as [(r & Hrun & Hacc & _) | (r & m & _ & _ & Hrun & Hacc)].
    + exists r, g. simpl. rewrite Hacc. repeat split; assumption.
    + eexists. eexists. simpl. split; [exact Hrun|].
      split; [now apply in_step_push|].
      rewrite Hacc. unfold py_len, stack_of. simpl.
      destruct (stack_push (board g) m) as [stored Hpush].
      rewrite Hpush, length_app. simpl. lia.
Qed.

Lemma run_calls_in_step :
  forall (calls : list Call) (g : GameState) (k : Z),
    in_step g -> py_len (stack_of g) = k ->
    exists g' k',
      run_calls calls g k = Some (g', k') /\ in_step g' /\
      py_len (stack_of g') = k'.
Proof.
  induction calls as [|c calls IH]; intros g k Hg Hk.
  - exists g, k. now repeat split.
  - destruct (call_tool_in_step c g Hg) as (r & g' & Hrun & Hg' & Hlen).
    simpl. rewrite Hrun. apply IH; [exact Hg'|].
    rewrite Hlen, Hk. now destruct c.
Qed.

Lemma reachable_in_step (g : GameState) : reachable g -> in_step g.
Proof.
  intros (calls & k & Hrun).
  destruct (run_calls_in_step calls GameState_new 0 in_step_new)
    as (g' & k' & Hrun' & Hg' & _).
  - unfold py_len, stack_of. simpl. now rewrite stack_new.
  - rewrite Hrun in Hrun'. now inversion Hrun'; subst.
Qed.
End Invariant.

(** The small engine keeps the laws, however positions are serialized. *)
Lemma book_reset_laws (serialize : list string -> string) :
  ResetLaws (Book.engine serialize).
Proof. constructor; reflexivity. Defined.

Lemma book_laws (serialize : list string -> string) :
  RulesEngineLaws (Book.engine serialize).
Proof.
  constructor.
  - reflexivity.
  - intros b m. now exists m.
  - apply book_reset_laws.
Defined.

(** So does the engine that normalises castling: the move it appends
    is not always the move it was given. *)
Lemma castling_laws : RulesEngineLaws Book.castling.
Proof.
  constructor.
  - reflexivity.
  - intros b m. now exists (Book.normalise m).
  - constructor; reflexivity.
Defined.

(** * Properties of the session manager *)

(** C1. A descriptor that [attempt_move] rejects, because it does not
    parse or because the parsed move is not legal in the current
    position, leaves the session untouched: [GameState.add_move_uci] and
    the [add_move] tool both return a non-accepting result, and the
    state after the call (board and notation history) is the state
    before it. *)
Theorem rejected_move_leaves_state {E : RulesEngine}
    (uci : string) (g : GameState) :
  (exists exc, from_uci uci = Raise exc) \/
  (exists m, from_uci uci = Ok m /\ legal_moves (board g) m = false) ->
  (exists outcome,
      add_move_uci uci g = (Ok outcome, g) /\
      dict_get "accepted" outcome = Some (VBool false)) /\
  (exists response,
      add_move uci g = (Ok response, g) /\ accepted response = false).
Proof.
  intros [(exc & Hparse) | (m & Hparse & Hlegal)].
  - split; eexists; split.
    + now apply (add_move_uci_parse_error uci exc).
    + reflexivity.
    + now apply (add_move_parse_error uci exc).
    + reflexivity.
  - split; eexists; split.
    + now apply (add_move_uci_illegal uci m).
    + reflexivity.
    + now apply (add_move_illegal uci m).
    + reflexivity.
Qed.

Lemma rejected_move_leaves_state_witness :
  (exists response,
      @add_move Book.standard "zz99" Book.after_e4_e5
      = (Ok response, Book.after_e4_e5) /\ accepted response = false) /\
  (exists response,
      @add_move Book.standard "e2e4" Book.after_e4_e5
      = (Ok response, Book.after_e4_e5) /\ accepted response = false).
Proof.
  split.
  - apply (@rejected_move_leaves_state Book.standard "zz99" Book.after_e4_e5).
    left. eexists. reflexivity.
  - apply (@rejected_move_leaves_state Book.standard "e2e4" Book.after_e4_e5).
    right. exists "e2e4". split; reflexivity.
Defined.

(** C2. On a descriptor that fails to parse, [GameState.add_move_uci]
    returns a rejection of kind [parse_error] carrying the diagnostic
    text; the [add_move] tool built on it keeps the kind and drops the
    text: its response has exactly the keys [accepted], [status] and
    [reason]. *)
Theorem add_move_drops_parse_diagnostic {E : RulesEngine}
    (uci exc : string) (g : GameState) :
  from_uci uci = Raise exc ->
  (exists outcome,
      add_move_uci uci g = (Ok outcome, g) /\
      dict_get "reason" outcome = Some (VStr "parse_error") /\
      dict_get "parse_error" outcome = Some (VStr exc)) /\
  (exists response,
      add_move uci g = (Ok (VDict response), g) /\
      dict_get "reason" response = Some (VStr "parse_error") /\
      map fst response = ["accepted"; "status"; "reason"] /\
      dict_get "parse_error" response = None).
Proof.
  intros Hparse. split; eexists.
  - split; [now apply (add_move_uci_parse_error uci exc)|]. now split.
  - split; [now apply (add_move_parse_error uci exc)|]. now repeat split.
Qed.

Lemma add_move_drops_parse_diagnostic_witness :
  exists response,
    @add_move Book.standard "zz99" GameState_new
    = (Ok (VDict response), GameState_new) /\
    dict_get "reason" response = Some (VStr "parse_error") /\
    map fst response = ["accepted"; "status"; "reason"] /\
    dict_get "parse_error" response = None.
Proof.
  apply (@add_move_drops_parse_diagnostic Book.standard "zz99"
           "invalid uci: 'zz99'" GameState_new).
  reflexivity.
Defined.

(** C3. After any sequence of tool calls from the session created at
    start-up, no call having raised, the length of the notation history
    equals the number of moves applied since the last reset, and that
    is the [ply_count] that [status()] reports. *)
Theorem history_length_is_ply_count {E : RulesEngine}
    {L : RulesEngineLaws E} (calls : list Call) :
  exists g applied st,
    run_calls calls GameState_new 0 = Some (g, applied) /\
    py_len (san_history g) = applied /\
    status g = (Ok st, g) /\
    dict_get "ply_count" st = Some (VInt applied).
Proof.
  destruct (run_calls_in_step calls GameState_new 0 in_step_new)
    as (g & k & Hrun & Hstep & Hlen).
  - unfold py_len, stack_of. simpl. now rewrite stack_new.
  - exists g, k, (status_value g). split; [exact Hrun|].
    split; [|split; [apply status_run|]].
    + unfold py_len in *. unfold in_step in Hstep. now rewrite Hstep.
    + simpl. now rewrite Hlen.
Qed.

Lemma history_length_is_ply_count_witness :
  exists g applied st,
    @run_calls Book.standard
      [AddMove "e2e4"; AddMove "e2e4"; AddMove "zz99"; CreateOrResetGame;
       AddMove "g1f3"; GetStatus; AddMove "e7e5"; LastMovesDetailed 1]
      GameState_new 0 = Some (g, applied) /\
    py_len (san_history g) = applied /\
    status g = (Ok st, g) /\
    dict_get "ply_count" st = Some (VInt applied).
Proof.
  apply (@history_length_is_ply_count Book.standard
           (book_laws Book.six_fields)).
Defined.

(** *** Records and parity *)

Lemma even_of_nat (i : nat) :
  Z.even (Z.of_nat i) = Nat.even i /\ Z.odd (Z.of_nat i) = Nat.odd i.
Proof.
  induction i as [|i [IHe IHo]]; [now split|].
  rewrite Nat2Z.inj_succ, Z.even_succ, Z.odd_succ.
  rewrite Nat.even_succ, Nat.odd_succ. now split.
Qed.

Lemma move_record_side_by_index (i : nat) (u : string) (s : value) :
  side_by_index i (move_record (Z.of_nat i) u s).
Proof.
  unfold side_by_index, move_record. eexists. split; [reflexivity|].
  split; [reflexivity|]. simpl.
  destruct (even_of_nat i) as [-> _].
  destruct (Nat.even i); split; split; intros H;
    try reflexivity; try discriminate.
Qed.

Lemma side_by_index_ply (i : nat) (r : value) :
  side_by_index i r -> side_by_ply r.
Proof.
  intros (d & -> & Hply & Hw & Hb).
  exists d, (Z.of_nat i + 1). split; [reflexivity|]. split; [exact Hply|].
  change (Z.of_nat i + 1) with (Z.succ (Z.of_nat i)).
  rewrite Z.odd_succ, Z.even_succ.
  destruct (even_of_nat i) as [He Ho]. rewrite He, Ho.
  split; [exact Hw|]. rewrite Hb. unfold Nat.odd.
  now destruct (Nat.even i).
Qed.

Section Records.
Context {E : RulesEngine}.

Lemma records_nth_error (g : GameState) (i : nat) (r : value) :
  nth_error (records g) i = Some r ->
  exists m,
    nth_error (stack_of g) i = Some m /\
    r = move_record (Z.of_nat i) (move_uci m)
          (opt_str (nth_error (san_history g) i)).
Proof.
  intros Hnth.
  assert (Hlt : (i < List.length (stack_of g))%nat).
  { rewrite <- records_length. apply nth_error_Some. now rewrite Hnth. }
  destruct (nth_error (stack_of g) i) as [m|] eqn:Hm;
    [|apply nth_error_None in Hm; lia].
  exists m. split; [reflexivity|].
  apply (nth_error_nth _ _ VNone) in Hnth. rewrite <- Hnth.
  unfold records.
  now rewrite (records_from_nth (san_history g) (stack_of g) 0 i m Hm).
Qed.

Lemma records_side_by_index (g : GameState) (i : nat) (r : value) :
  nth_error (records g) i = Some r -> side_by_index i r.
Proof.
  intros Hnth. apply records_nth_error in Hnth as (m & _ & ->).
  apply move_record_side_by_index.
Qed.

Lemma records_side_by_ply (g : GameState) (r : value) :
  In r (records g) -> side_by_ply r.
Proof.
  intros Hin. apply In_nth_error in Hin as (i & Hnth).
  apply (side_by_index_ply i). now apply (records_side_by_index g).
Qed.

Lemma In_skipn {A : Type} (n : nat) (l : list A) (a : A) :
  In a (skipn n l) -> In a l.
Proof.
  intros Hin. rewrite <- (firstn_skipn n l). apply in_or_app. now right.
Qed.

(** The two suffix views, for every [n]. *)
Lemma last_n_detailed_both (n : Z) (g : GameState) :
  exists rs,
    last_n_moves_detailed n g = (Ok rs, g) /\
    last_moves_detailed n g = (Ok (VList rs), g) /\
    rs = (if n <=? 0 then []
          else suffix (Z.to_nat (Z.min n (py_len (records g))))
                 (records g)).
Proof.
  destruct (n <=? 0) eqn:Hle.
  - exists []. unfold last_n_moves_detailed, last_moves_detailed.
    rewrite Hle. now repeat split.
  - apply Z.leb_gt in Hle. eexists.
    split; [now apply last_n_moves_detailed_run|].
    split; [now apply last_moves_detailed_run|].
    rewrite <- (records_py_len g). now apply skipn_suffix.
Qed.
End Records.

(** C4. In the detailed history, as [GameState.all_moves_detailed] and
    the [list_moves_detailed] tool produce it, the record at 0-based
    index [i] has ply [i + 1] and side ["white"] if and only if [i] is
    even (["black"] otherwise); read off any record, also in the suffix
    views, the side is ["white"] exactly for an odd ply. *)
Theorem side_follows_parity {E : RulesEngine} (g : GameState) :
  exists details,
    all_moves_detailed g = (Ok details, g) /\
    list_moves_detailed g = (Ok (VList details), g) /\
    (forall i r, nth_error details i = Some r -> side_by_index i r) /\
    (forall n, exists rs,
        last_n_moves_detailed n g = (Ok rs, g) /\
        last_moves_detailed n g = (Ok (VList rs), g) /\
        forall r, In r rs -> side_by_ply r).
Proof.
  exists (records g). split; [apply all_moves_detailed_run|].
  split.
  { unfold list_moves_detailed.
    erewrite bind_ok by apply format_all_moves_run. reflexivity. }
  split; [apply records_side_by_index|].
  intros n. destruct (last_n_detailed_both n g) as (rs & H1 & H2 & ->).
  eexists. split; [exact H1|]. split; [exact H2|].
  intros r Hin. apply (records_side_by_ply g).
  destruct (n <=? 0); [contradiction|].
  now apply In_skipn in Hin.
Qed.

Lemma side_follows_parity_witness :
  exists details r,
    @all_moves_detailed Book.standard Book.after_e4_e5
    = (Ok details, Book.after_e4_e5) /\
    nth_error details 1 = Some r /\ side_by_index 1 r.
Proof.
  destruct (@side_follows_parity Book.standard Book.after_e4_e5)
    as (details & Hrun & _ & Hside & _).
  exists details.
  assert (Hd : details =
               [move_record 0 "e2e4" (VStr "e4");
                move_record 1 "e7e5" (VStr "e5")]).
  { vm_compute in Hrun. now inversion Hrun. }
  exists (move_record 1 "e7e5" (VStr "e5")).
  split; [exact Hrun|]. split; [now rewrite Hd|].
  apply Hside. now rewrite Hd.
Defined.

(** C5. For every integer [n], with [moves] the full descriptor history
    and [details] the full detailed history: [last_n_moves(n)] and
    [last_n_moves_detailed(n)] return the empty list when [n <= 0], the
    full history when [n >= len(history)], and for [n > 0] the suffix of
    length [min(n, len(history))]. *)
Theorem last_n_is_suffix {E : RulesEngine} (n : Z) (g : GameState) :
  exists moves details,
    all_moves g = (Ok moves, g) /\
    all_moves_detailed g = (Ok details, g) /\
    py_len details = py_len moves /\
    (n <= 0 ->
     last_n_moves n g = (Ok [], g) /\
     last_n_moves_detailed n g = (Ok [], g)) /\
    (py_len moves <= n ->
     last_n_moves n g = (Ok moves, g) /\
     last_n_moves_detailed n g = (Ok details, g)) /\
    (0 < n ->
     let k := Z.to_nat (Z.min n (py_len moves)) in
     last_n_moves n g = (Ok (suffix k moves), g) /\
     last_n_moves_detailed n g = (Ok (suffix k details), g) /\
     List.length (suffix k moves) = k /\
     List.length (suffix k details) = k).
Proof.
  exists (map move_uci (stack_of g)), (records g).
  assert (Hlen : py_len (map move_uci (stack_of g)) = py_len (stack_of g))
    by (unfold py_len; now rewrite length_map).
  assert (Hpos : 0 < n ->
     let k := Z.to_nat (Z.min n (py_len (map move_uci (stack_of g)))) in
     last_n_moves n g = (Ok (suffix k (map move_uci (stack_of g))), g) /\
     last_n_moves_detailed n g = (Ok (suffix k (records g)), g)).
  { intros Hn k. subst k. split.
    - rewrite last_n_moves_run by exact Hn.
      rewrite <- Hlen. now rewrite skipn_suffix.
    - rewrite last_n_moves_detailed_run by exact Hn.
      rewrite Hlen, <- (records_py_len g). now rewrite skipn_suffix. }
  split; [apply all_moves_run|].
  split; [apply all_moves_detailed_run|].
  split; [now rewrite Hlen, records_py_len|].
  split; [|split].
  - intros Hn. apply Z.leb_le in Hn.
    unfold last_n_moves, last_n_moves_detailed. rewrite Hn. now split.
  - intros Hn. destruct (Z.leb_spec n 0) as [Hle|Hgt].
    + assert (Hnil : stack_of g = []).
      { pose proof (py_len_nonneg (stack_of g)) as H0.
        destruct (stack_of g); [reflexivity|].
        rewrite Hlen in Hn. unfold py_len in Hn. simpl in Hn. lia. }
      apply Z.leb_le in Hle.
      unfold last_n_moves, last_n_moves_detailed, records. rewrite Hle, Hnil.
      now split.
    + destruct (Hpos Hgt) as [H1 H2]. rewrite H1, H2.
      rewrite !suffix_all; [now split| |].
      * rewrite records_length. rewrite Hlen in Hn |- *.
        unfold py_len in Hn |- *. lia.
      * rewrite length_map. rewrite Hlen in Hn |- *.
        unfold py_len in Hn |- *. lia.
  - intros Hn k. destruct (Hpos Hn) as [H1 H2].
    split; [exact H1|]. split; [exact H2|].
    rewrite !suffix_length. subst k.
    rewrite records_length, length_map, Hlen. unfold py_len. lia.
Qed.

Lemma last_n_is_suffix_witness :
  @last_n_moves Book.standard (-3) Book.after_e4_e5
  = (Ok [], Book.after_e4_e5) /\
  @last_n_moves Book.standard 5 Book.after_e4_e5
  = (Ok ["e2e4"; "e7e5"], Book.after_e4_e5) /\
  @last_n_moves Book.standard 1 Book.after_e4_e5
  = (Ok ["e7e5"], Book.after_e4_e5) /\
  @last_n_moves_detailed Book.standard 1 Book.after_e4_e5
  = (Ok [move_record 1 "e7e5" (VStr "e5")], Book.after_e4_e5).
Proof.
  destruct (@last_n_is_suffix Book.standard (-3) Book.after_e4_e5)
    as (m0 & d0 & _ & _ & _ & Hneg & _ & _).
  destruct (@last_n_is_suffix Book.standard 5 Book.after_e4_e5)
    as (m1 & d1 & Hm1 & _ & _ & _ & Hall & _).
  destruct (@last_n_is_suffix Book.standard 1 Book.after_e4_e5)
    as (m2 & d2 & Hm2 & Hd2 & _ & _ & _ & Hpos).
  assert (E1 : m1 = ["e2e4"; "e7e5"])
    by (vm_compute in Hm1; now inversion Hm1).
  assert (E2 : m2 = ["e2e4"; "e7e5"])
    by (vm_compute in Hm2; now inversion Hm2).
  assert (E3 : d2 = [move_record 0 "e2e4" (VStr "e4");
                     move_record 1 "e7e5" (VStr "e5")])
    by (vm_compute in Hd2; now inversion Hd2).
  split; [apply Hneg; lia|].
  split.
  { rewrite <- E1. apply Hall. rewrite E1. vm_compute. discriminate. }
  destruct Hpos as (H1 & H2 & _); [lia|].
  rewrite E2 in H1. rewrite E2, E3 in H2.
  split; [exact H1 | exact H2].
Defined.

(** C10. For every integer [n] and every state, the [last_moves_detailed]
    tool, with its own copy of the suffix loop over
    [_format_move_detail], returns the list that
    [GameState.last_n_moves_detailed(n)] returns, and neither changes
    the session. *)
Theorem last_moves_detailed_agree {E : RulesEngine}
    (n : Z) (g : GameState) :
  exists rs,
    last_n_moves_detailed n g = (Ok rs, g) /\
    last_moves_detailed n g = (Ok (VList rs), g).
Proof.
  destruct (last_n_detailed_both n g) as (rs & H1 & H2 & _).
  now exists rs.
Qed.

Lemma last_moves_detailed_agree_witness :
  exists rs,
    @last_n_moves_detailed Book.standard 1 Book.after_e4_e5
    = (Ok rs, Book.after_e4_e5) /\
    @last_moves_detailed Book.standard 1 Book.after_e4_e5
    = (Ok (VList rs), Book.after_e4_e5).
Proof.
  apply (@last_moves_detailed_agree Book.standard 1 Book.after_e4_e5).
Defined.

(** *** The fields of the status object *)

Section StatusFields.
Context {E : RulesEngine}.

Lemma status_fen (g : GameState) :
  dict_get "fen" (status_value g) = Some (VStr (fen (board g))).
Proof. reflexivity. Qed.

Lemma status_side_to_move (g : GameState) :
  dict_get "side_to_move" (status_value g)
  = Some (VStr (if turn (board g) then "white" else "black")).
Proof. reflexivity. Qed.

Lemma status_ply_count (g : GameState) :
  dict_get "ply_count" (status_value g)
  = Some (VInt (py_len (stack_of g))).
Proof. reflexivity. Qed.

Lemma status_castling_rights (g : GameState) :
  dict_get "castling_rights" (status_value g)
  = Some (opt_str (nth_error (py_split (fen (board g))) 2)).
Proof. reflexivity. Qed.

Lemma status_en_passant_square (g : GameState) :
  dict_get "en_passant_square" (status_value g)
  = Some (opt_str (nth_error (py_split (fen (board g))) 3)).
Proof. reflexivity. Qed.
End StatusFields.

(** C6. From every state, [reset()] returns, and so does the
    [create_or_reset_game] tool; the state they leave has an empty
    notation history and an empty move stack, White to move and the
    standard starting position, and the tool reports [ok], side to move
    ["white"], ply count 0 and empty move lists. *)
Theorem reset_yields_start {E : RulesEngine} {R : ResetLaws E}
    (g : GameState) :
  exists g' response st,
    reset g = (Ok tt, g') /\
    create_or_reset_game g = (Ok (VDict response), g') /\
    san_history g' = [] /\
    stack_of g' = [] /\
    turn (board g') = true /\
    fen (board g') = STARTING_FEN /\
    dict_get "ok" response = Some (VBool true) /\
    dict_get "status" response = Some (VDict st) /\
    dict_get "moves" response = Some (VList []) /\
    dict_get "moves_detailed" response = Some (VList []) /\
    dict_get "side_to_move" st = Some (VStr "white") /\
    dict_get "ply_count" st = Some (VInt 0) /\
    dict_get "fen" st = Some (VStr STARTING_FEN).
Proof.
  set (g' := {| board := board_reset (board g); san_history := [] |}).
  assert (Hstack : stack_of g' = []) by (unfold stack_of; apply stack_reset).
  exists g'. eexists. exists (status_value g').
  split; [apply reset_run|].
  split; [apply create_or_reset_game_run|].
  split; [reflexivity|].
  split; [exact Hstack|].
  split; [apply turn_reset|].
  split; [apply fen_reset|].
  split; [reflexivity|].
  split; [reflexivity|].
  split; [fold g'; now rewrite Hstack|].
  split; [fold g'; unfold records; now rewrite Hstack|].
  rewrite status_side_to_move, status_ply_count, status_fen.
  rewrite Hstack. unfold g' at 1 2. simpl board.
  rewrite turn_reset, fen_reset. now repeat split.
Qed.

Lemma reset_yields_start_witness :
  exists response st,
    @create_or_reset_game Book.standard Book.after_e4_e5
    = (Ok (VDict response), GameState_new) /\
    dict_get "status" response = Some (VDict st) /\
    dict_get "side_to_move" st = Some (VStr "white") /\
    dict_get "ply_count" st = Some (VInt 0).
Proof.
  destruct (@reset_yields_start Book.standard
              (book_reset_laws Book.six_fields) Book.after_e4_e5)
    as (g' & response & st & Hreset & Hrun & _ & _ & _ & _ & _
        & Hst & _ & _ & Hside & Hply & _).
  assert (Hg' : g' = GameState_new)
    by (vm_compute in Hreset; now inversion Hreset).
  exists response, st. rewrite <- Hg'. now repeat split.
Defined.

(** C7. Every serialized position string has one reading as
    whitespace-delimited fields, and for it [status()] returns, with
    [castling_rights] the third field and [en_passant_square] the
    fourth (counting from 1); when the string has fewer than three
    (four) fields the entry is [None]. *)
Theorem status_reads_fen_fields {E : RulesEngine} (g : GameState) :
  (exists fs, fields_of (fen (board g)) fs) /\
  forall fs,
    fields_of (fen (board g)) fs ->
    exists st,
      status g = (Ok st, g) /\
      dict_get "castling_rights" st = Some (opt_str (nth_error fs 2)) /\
      dict_get "en_passant_square" st = Some (opt_str (nth_error fs 3)) /\
      ((List.length fs < 3)%nat ->
       dict_get "castling_rights" st = Some VNone) /\
      ((List.length fs < 4)%nat ->
       dict_get "en_passant_square" st = Some VNone).
Proof.
  split; [exists (py_split (fen (board g))); apply split_complete|].
  intros fs Hfs. apply split_sound in Hfs.
  exists (status_value g). split; [apply status_run|].
  rewrite status_castling_rights, status_en_passant_square, Hfs.
  split; [reflexivity|]. split; [reflexivity|].
  split; intros Hlen.
  - replace (nth_error fs 2) with (@None string); [reflexivity|].
    symmetry. apply nth_error_None. lia.
  - replace (nth_error fs 3) with (@None string); [reflexivity|].
    symmetry. apply nth_error_None. lia.
Qed.

Lemma status_reads_fen_fields_witness :
  (exists st,
      @status Book.standard GameState_new = (Ok st, GameState_new) /\
      dict_get "castling_rights" st = Some (VStr "KQkq") /\
      dict_get "en_passant_square" st = Some (VStr "-")) /\
  (exists st,
      @status Book.truncated Book.truncated_after_e4
      = (Ok st, Book.truncated_after_e4) /\
      dict_get "castling_rights" st = Some VNone /\
      dict_get "en_passant_square" st = Some VNone).
Proof.
  split.
  - destruct (@status_reads_fen_fields Book.standard GameState_new)
      as [_ H].
    destruct (H ["rnbqkbnr/pppppppp/8/8/8/8/PPPPPPPP/RNBQKBNR";
                 "w"; "KQkq"; "-"; "0"; "1"])
      as (st & Hrun & Hc & Hep & _).
    + exact (split_complete STARTING_FEN).
    + exists st. now repeat split.
  - destruct (@status_reads_fen_fields Book.truncated
                Book.truncated_after_e4) as [_ H].
    destruct (H ["8/8/8/8/8/8/8/8"; "b"]) as (st & Hrun & _ & _ & Hc & Hep).
    + exact (split_complete "8/8/8/8/8/8/8/8 b").
    + exists st. split; [exact Hrun|].
      split; [apply Hc | apply Hep]; simpl; lia.
Defined.

(** C8. For every descriptor, well formed or not, and every state,
    [GameState.is_move_legal] and the [is_legal] tool return and leave
    the session (board and history) exactly as it was. *)
Theorem is_legal_leaves_state {E : RulesEngine}
    (uci : string) (g : GameState) :
  (exists r, is_move_legal uci g = (Ok r, g)) /\
  (exists r, is_legal uci g = (Ok r, g)).
Proof.
  split.
  - eexists. apply is_move_legal_run.
  - unfold is_legal. erewrite bind_ok by apply is_move_legal_run.
    now eexists.
Qed.

Lemma is_legal_leaves_state_witness :
  @is_legal Book.standard "zz99" Book.after_e4_e5
  = (Ok (VDict [("parse_error", VStr "invalid uci: 'zz99'");
                ("legal", VBool false)]), Book.after_e4_e5) /\
  @is_legal Book.standard "g1f3" Book.after_e4_e5
  = (Ok (VDict [("legal", VBool true)]), Book.after_e4_e5).
Proof.
  destruct (@is_legal_leaves_state Book.standard "zz99" Book.after_e4_e5)
    as [_ (r1 & H1)].
  destruct (@is_legal_leaves_state Book.standard "g1f3" Book.after_e4_e5)
    as [_ (r2 & H2)].
  split.
  - rewrite H1. vm_compute in H1. now inversion H1.
  - rewrite H2. vm_compute in H2. now inversion H2.
Defined.

(** *** Appending to the history *)

Section Append.
Context {E : RulesEngine}.

Lemma records_from_cons (h : list string) (k : nat) (m : Move)
    (stack : list Move) :
  records_from h k (m :: stack)
  = move_record (Z.of_nat k) (move_uci m) (opt_str (nth_error h k))
    :: records_from h (S k) stack.
Proof. reflexivity. Qed.

Lemma records_from_snoc (h : list string) :
  forall (stack : list Move) (k : nat) (m : Move),
    records_from h k (stack ++ [m])
    = records_from h k stack
      ++ [move_record (Z.of_nat (k + List.length stack)) (move_uci m)
            (opt_str (nth_error h (k + List.length stack)))].
Proof.
  induction stack as [|x stack IH]; intros k m.
  - simpl. rewrite records_from_cons, Nat.add_0_r. reflexivity.
  - simpl app. rewrite !records_from_cons, IH.
    change (List.length (x :: stack)) with (S (List.length stack)).
    replace (k + S (List.length stack))%nat
      with (S k + List.length stack)%nat by lia.
    reflexivity.
Qed.

(** Only the cache entries of the indices in use matter. *)
Lemma records_from_ext (h h' : list string) :
  forall (stack : list Move) (k : nat),
    (forall i, (k <= i < k + List.length stack)%nat ->
               nth_error h i = nth_error h' i) ->
    records_from h k stack = records_from h' k stack.
Proof.
  induction stack as [|x stack IH]; intros k Hext; [reflexivity|].
  rewrite !records_from_cons. f_equal.
  - rewrite Hext; [reflexivity | simpl; lia].
  - apply IH. intros i Hi. apply Hext. simpl. lia.
Qed.

Lemma records_push (g : GameState) (m stored : Move) (s : string) :
  in_step g ->
  move_stack (push (board g) m) = move_stack (board g) ++ [stored] ->
  records {| board := push (board g) m;
             san_history := san_history g ++ [s] |}
  = records g
    ++ [move_record (py_len (san_history g)) (move_uci stored) (VStr s)].
Proof.
  unfold in_step, records, stack_of. simpl. intros Hstep Hpush.
  rewrite Hpush, records_from_snoc. simpl. rewrite <- Hstep.
  rewrite nth_error_app2, Nat.sub_diag by lia. simpl.
  f_equal. apply records_from_ext.
  intros i Hi. rewrite nth_error_app1 by lia. reflexivity.
Qed.
End Append.

(** C9. An accepted move is rendered against the position before it is
    played: [add_move_uci] leaves the board with the move pushed and
    the notation history extended by [board.san(move)] of the board
    before the call.  In a session whose history is in step with the
    board, the detailed history gains one record at the end, with ply
    [len(history) + 1], that notation, and the descriptor of the move
    as the board stored it; and whenever rendering the move against
    the board after the move gives another text, the stored notation
    is not that text. *)
Theorem notation_is_pre_move {E : RulesEngine} {L : RulesEngineLaws E}
    (uci : string) (m : Move) (g : GameState) :
  from_uci uci = Ok m ->
  legal_moves (board g) m = true ->
  in_step g ->
  exists g' before d stored,
    add_move_uci uci g = (Ok [("accepted", VBool true)], g') /\
    board g' = push (board g) m /\
    san_history g' = san_history g ++ [san (board g) m] /\
    all_moves_detailed g = (Ok before, g) /\
    all_moves_detailed g' = (Ok (before ++ [VDict d]), g') /\
    dict_get "ply" d = Some (VInt (py_len (san_history g) + 1)) /\
    stack_of g' = stack_of g ++ [stored] /\
    dict_get "uci" d = Some (VStr (move_uci stored)) /\
    dict_get "san" d = Some (VStr (san (board g) m)) /\
    last_of (san_history g') = Some (san (board g) m) /\
    (san (board g') m <> san (board g) m ->
     last_of (san_history g') <> Some (san (board g') m)).
Proof.
  intros Hparse Hlegal Hstep.
  destruct (stack_push (board g) m) as [stored Hpush].
  eexists. exists (records g). eexists. exists stored.
  split; [apply (add_move_uci_accepted uci m); assumption|].
  split; [reflexivity|]. split; [reflexivity|].
  split; [apply all_moves_detailed_run|].
  split.
  { rewrite all_moves_detailed_run.
    rewrite (records_push g m stored) by assumption.
    unfold move_record. reflexivity. }
  split; [reflexivity|]. split; [exact Hpush|].
  split; [reflexivity|]. split; [reflexivity|].
  simpl san_history. rewrite last_of_snoc.
  split; [reflexivity|].
  intros Hdiff Heq. apply Hdiff. now inversion Heq.
Qed.

Lemma notation_is_pre_move_witness :
  exists g',
    @add_move_uci Book.standard "e2e4" GameState_new
    = (Ok [("accepted", VBool true)], g') /\
    san_history g' = ["e4"] /\
    @san Book.standard (board g') "e2e4" = "--" /\
    last_of (san_history g') <> Some "--".
Proof.
  destruct (@notation_is_pre_move Book.standard (book_laws Book.six_fields)
              "e2e4" "e2e4" GameState_new)
    as (g' & before & d & stored & Hrun & Hboard & Hhist & _ & _ & _ & _ & _
        & _ & _ & Hdiff); try reflexivity.
  exists g'. split; [exact Hrun|].
  assert (Hsan : @san Book.standard (board g') "e2e4" = "--")
    by (rewrite Hboard; reflexivity).
  split; [exact Hhist|]. split; [exact Hsan|].
  rewrite <- Hsan. apply Hdiff. rewrite Hsan. discriminate.
Defined.

(** * Further properties of the tools *)

(** X1. The seven read-only tools ([get_status], [is_legal],
    [list_moves], [list_moves_detailed], [last_moves],
    [last_moves_detailed], [board_ascii]) return for every argument,
    negative counts included, and leave the session as they found it. *)
Theorem query_tools_leave_state {E : RulesEngine}
    (c : Call) (g : GameState) :
  is_query c = true ->
  exists r, call_tool c g = (Ok r, g).
Proof.
  intros Hq. pose proof (query_tool_frame c g) as H.
  destruct c; try discriminate Hq; exact H.
Qed.

Lemma query_tools_leave_state_witness :
  (exists r, @call_tool Book.standard (LastMovesDetailed (-2))
               Book.after_e4_e5 = (Ok r, Book.after_e4_e5)) /\
  (exists r, @call_tool Book.standard GetStatus
               Book.after_e4_e5 = (Ok r, Book.after_e4_e5)).
Proof.
  split.
  - apply (@query_tools_leave_state Book.standard). reflexivity.
  - apply (@query_tools_leave_state Book.standard). reflexivity.
Defined.

(** X2. [is_legal] predicts [add_move]: on the same state and
    descriptor, the [legal] flag that [is_legal] returns is the
    [accepted] flag that [add_move] returns. *)
Theorem is_legal_predicts_add_move {E : RulesEngine}
    (uci : string) (g : GameState) :
  exists r response g',
    is_legal uci g = (Ok (VDict r), g) /\
    add_move uci g = (Ok (VDict response), g') /\
    exists b,
      dict_get "legal" r = Some (VBool b) /\
      dict_get "accepted" response = Some (VBool b).
Proof.
  unfold is_legal. erewrite bind_ok by apply is_move_legal_run.
  destruct (from_uci uci) as [m|exc] eqn:Hparse.
  - destruct (legal_moves (board g) m) eqn:Hlegal.
    + eexists. eexists. eexists. split; [reflexivity|].
      split; [apply (add_move_accepted uci m); assumption|].
      exists true. now split.
    + eexists. eexists. eexists. split; [reflexivity|].
      split; [apply (add_move_illegal uci m); assumption|].
      exists false. now split.
  - eexists. eexists. eexists. split; [reflexivity|].
    split; [apply (add_move_parse_error uci exc); assumption|].
    exists false. now split.
Qed.

(** X3. A well-formed but illegal move is rejected with exactly the
    keys [accepted], [status], [reason], [expected_turn]; the reason is
    ["illegal"], and [expected_turn] is the side that [status] of the
    same response reports as to move. *)
Theorem illegal_move_reports_turn {E : RulesEngine}
    (uci : string) (m : Move) (g : GameState) :
  from_uci uci = Ok m ->
  legal_moves (board g) m = false ->
  exists response st side,
    add_move uci g = (Ok (VDict response), g) /\
    map fst response = ["accepted"; "status"; "reason"; "expected_turn"] /\
    dict_get "accepted" response = Some (VBool false) /\
    dict_get "reason" response = Some (VStr "illegal") /\
    dict_get "expected_turn" response = Some (VStr side) /\
    dict_get "status" response = Some (VDict st) /\
    dict_get "side_to_move" st = Some (VStr side) /\
    side = (if turn (board g) then "white" else "black").
Proof.
  intros Hparse Hlegal.
  eexists. exists (status_value g). eexists.
  split; [apply (add_move_illegal uci m); assumption|].
  now repeat split.
Qed.

Lemma illegal_move_reports_turn_witness :
  exists response,
    @add_move Book.standard "e7e5" GameState_new
    = (Ok (VDict response), GameState_new) /\
    dict_get "reason" response = Some (VStr "illegal") /\
    dict_get "expected_turn" response = Some (VStr "white").
Proof.
  destruct (@illegal_move_reports_turn Book.standard "e7e5" "e7e5"
              GameState_new)
    as (response & st & side & Hrun & _ & _ & Hreason & Hturn & _ & _ & Hside);
    try reflexivity.
  exists response. split; [exact Hrun|]. split; [exact Hreason|].
  rewrite Hturn, Hside. reflexivity.
Defined.

(** X4. Whatever the outcome, the [status] entry of an [add_move]
    response is what [get_status] returns on the state the call
    leaves. *)
Theorem add_move_reports_current_status {E : RulesEngine}
    (uci : string) (g : GameState) :
  exists response g' st,
    add_move uci g = (Ok (VDict response), g') /\
    get_status g' = (Ok st, g') /\
    dict_get "status" response = Some st.
Proof.
  assert (Hst : forall g0, get_status g0 = (Ok (VDict (status_value g0)), g0)).
  { intros g0. unfold get_status.
    erewrite bind_ok by apply status_run. reflexivity. }
  destruct (from_uci uci) as [m|exc] eqn:Hparse.
  - destruct (legal_moves (board g) m) eqn:Hlegal.
    + eexists. eexists. eexists.
      split; [apply (add_move_accepted uci m); assumption|].
      split; [apply Hst | reflexivity].
    + eexists. eexists. eexists.
      split; [apply (add_move_illegal uci m); assumption|].
      split; [apply Hst | reflexivity].
  - eexists. eexists. eexists.
    split; [apply (add_move_parse_error uci exc); assumption|].
    split; [apply Hst | reflexivity].
Qed.

Lemma last_of_nil {A : Type} : last_of (@nil A) = None.
Proof. reflexivity. Qed.

Lemma last_of_map {A B : Type} (f : A -> B) (l : list A) :
  last_of (map f l) = option_map f (last_of l).
Proof.
  destruct l as [|a l' _] using rev_ind; [reflexivity|].
  rewrite map_app. simpl map. now rewrite !last_of_snoc.
Qed.

Section LastMove.
Context {E : RulesEngine}.

Lemma status_last_move_uci (g : GameState) :
  dict_get "last_move_uci" (status_value g)
  = Some (opt_str (last_of (map move_uci (stack_of g)))).
Proof.
  rewrite last_of_map. simpl. now destruct (last_of (stack_of g)).
Qed.

Lemma status_last_move_san (g : GameState) :
  dict_get "last_move_san" (status_value g)
  = Some (opt_str (last_of (san_history g))).
Proof. reflexivity. Qed.

Lemma status_who_moved_last (g : GameState) :
  dict_get "who_moved_last" (status_value g)
  = Some (match last_of (stack_of g) with
          | Some _ =>
              VStr (if Z.even (py_len (stack_of g) - 1)
                    then "white" else "black")
          | None => VNone
          end).
Proof. reflexivity. Qed.
End LastMove.

(** X5. An accepted move lengthens the descriptor history by one entry
    and keeps the entries before it: the response has exactly the keys
    [accepted], [status], [moves], [moves_detailed]; [moves] is the
    former list followed by the descriptor of the move as the board
    stored it (which need not be the caller's descriptor); and the
    status reports that descriptor as the last move, with the notation
    rendered before the move, a ply count one higher, and the mover
    given by the parity of the former count. *)
Theorem accepted_move_extends_history {E : RulesEngine}
    {L : RulesEngineLaws E} (uci : string) (m : Move) (g : GameState) :
  from_uci uci = Ok m ->
  legal_moves (board g) m = true ->
  exists response st g' before stored,
    all_moves g = (Ok before, g) /\
    add_move uci g = (Ok (VDict response), g') /\
    stack_of g' = stack_of g ++ [stored] /\
    map fst response = ["accepted"; "status"; "moves"; "moves_detailed"] /\
    dict_get "accepted" response = Some (VBool true) /\
    dict_get "moves" response
    = Some (VList (map VStr (before ++ [move_uci stored]))) /\
    dict_get "status" response = Some (VDict st) /\
    dict_get "last_move_uci" st = Some (VStr (move_uci stored)) /\
    dict_get "last_move_san" st = Some (VStr (san (board g) m)) /\
    dict_get "ply_count" st = Some (VInt (py_len before + 1)) /\
    dict_get "who_moved_last" st
    = Some (VStr (if Z.even (py_len before) then "white" else "black")).
Proof.
  intros Hparse Hlegal.
  set (g' := {| board := push (board g) m;
                san_history := san_history g ++ [san (board g) m] |}).
  destruct (stack_push (board g) m) as [stored Hpush].
  assert (Hstack : stack_of g' = stack_of g ++ [stored]) by exact Hpush.
  assert (Hlen : py_len (map move_uci (stack_of g)) = py_len (stack_of g))
    by (unfold py_len; now rewrite length_map).
  eexists. exists (status_value g'), g', (map move_uci (stack_of g)), stored.
  split; [apply all_moves_run|].
  split; [apply (add_move_accepted uci m); assumption|].
  split; [exact Hstack|].
  split; [reflexivity|]. split; [reflexivity|].
  split.
  { simpl. fold g'. rewrite Hstack, map_app. reflexivity. }
  split; [reflexivity|].
  rewrite status_last_move_uci, status_last_move_san, status_ply_count,
    status_who_moved_last.
  rewrite Hstack, map_app. simpl map. rewrite !last_of_snoc.
  unfold g' at 1. simpl san_history. rewrite last_of_snoc.
  rewrite py_len_app, Hlen. change (py_len [stored]) with 1.
  replace (py_len (stack_of g) + 1 - 1) with (py_len (stack_of g)) by lia.
  now repeat split.
Qed.

Lemma accepted_move_extends_history_witness :
  exists response st,
    @add_move Book.castling "e1h1" GameState_new
    = (Ok (VDict response), @Build_GameState Book.castling ["e1g1"] ["O-O"])
    /\
    dict_get "moves" response = Some (VList [VStr "e1g1"]) /\
    dict_get "status" response = Some (VDict st) /\
    dict_get "last_move_uci" st = Some (VStr "e1g1") /\
    dict_get "last_move_san" st = Some (VStr "O-O").
Proof.
  destruct (@accepted_move_extends_history Book.castling castling_laws
              "e1h1" "e1h1" GameState_new)
    as (response & st & g' & before & stored & Hbefore & Hrun & Hstack
        & _ & _ & Hmoves & Hst & Huci & Hsan & _); try reflexivity.
  assert (Hb : before = [])
    by (vm_compute in Hbefore; now inversion Hbefore).
  assert (Hg' : g' = @Build_GameState Book.castling ["e1g1"] ["O-O"])
    by (pose proof Hrun as Hc; vm_compute in Hc; now inversion Hc).
  assert (Hs : stored = "e1g1").
  { rewrite Hg' in Hstack. vm_compute in Hstack. now inversion Hstack. }
  exists response, st. rewrite <- Hg'. split; [exact Hrun|].
  rewrite Hmoves, Huci, Hsan, Hb, Hs. now repeat split.
Defined.

(** X6. The last-move fields of the status follow the move stack: with
    [moves] what [list_moves] returns, [ply_count] is [len(moves)],
    [last_move_uci] is the last of them, and both it and
    [who_moved_last] are [None] when there is none; otherwise
    [who_moved_last] is the side of the last record of the detailed
    history. *)
Theorem status_follows_move_stack {E : RulesEngine} (g : GameState) :
  exists st moves details,
    status g = (Ok st, g) /\
    all_moves g = (Ok moves, g) /\
    all_moves_detailed g = (Ok details, g) /\
    dict_get "ply_count" st = Some (VInt (py_len moves)) /\
    dict_get "last_move_uci" st = Some (opt_str (last_of moves)) /\
    (moves = [] ->
     dict_get "last_move_uci" st = Some VNone /\
     dict_get "who_moved_last" st = Some VNone) /\
    (forall r, last_of details = Some r ->
       exists d side,
         r = VDict d /\
         dict_get "side" d = Some side /\
         dict_get "who_moved_last" st = Some side).
Proof.
  exists (status_value g), (map move_uci (stack_of g)), (records g).
  split; [apply status_run|]. split; [apply all_moves_run|].
  split; [apply all_moves_detailed_run|].
  rewrite status_ply_count, status_last_move_uci, status_who_moved_last.
  split; [unfold py_len; now rewrite length_map|].
  split; [reflexivity|].
  split.
  - intros Hnil. apply map_eq_nil in Hnil. rewrite Hnil. now split.
  - intros r. unfold records.
    destruct (stack_of g) as [|x l' _] using rev_ind; [discriminate|].
    rewrite records_from_snoc, !last_of_snoc. intros Hr. inversion Hr.
    unfold move_record. eexists. eexists. split; [reflexivity|].
    split; [reflexivity|].
    rewrite py_len_app. change (py_len [x]) with 1. unfold py_len. simpl.
    now replace (Z.of_nat (List.length l') + 1 - 1)
      with (Z.of_nat (List.length l')) by lia.
Qed.

(** *** Dictionaries *)

Lemma dict_get_set_same (k : string) (v : value) (d : dict) :
  dict_get k (dict_set k v d) = Some v.
Proof.
  induction d as [|[k' v'] d IH]; simpl.
  - now rewrite String.eqb_refl.
  - destruct (String.eqb k k') eqn:Hk; simpl; rewrite Hk; [reflexivity|].
    exact IH.
Qed.

Lemma dict_get_set_other (k k' : string) (v : value) (d : dict) :
  k <> k' -> dict_get k' (dict_set k v d) = dict_get k' d.
Proof.
  intros Hne. induction d as [|[k0 v0] d IH]; simpl.
  - destruct (String.eqb_spec k' k) as [->|_]; [contradiction | reflexivity].
  - destruct (String.eqb_spec k k0) as [->|Hk]; simpl.
    + destruct (String.eqb_spec k' k0) as [->|_];
        [contradiction | reflexivity].
    + now rewrite IH.
Qed.

Section Pieces.
Context {E : RulesEngine}.

(** The loop of [pieces_map], from a dictionary [d]. *)
Lemma pieces_fold_absent (items : list (Square * Piece)) :
  forall (d : dict) (k : string),
    ~ In k (map (fun it => square_name (fst it)) items) ->
    dict_get k
      (fold_left
         (fun mapping '(square, piece) =>
            dict_set (square_name square) (VStr (piece_symbol piece)) mapping)
         items d)
    = dict_get k d.
Proof.
  induction items as [|[sq p] items IH]; intros d k Hnot; [reflexivity|].
  simpl in *. rewrite IH by tauto.
  apply dict_get_set_other. intros Heq. apply Hnot. now left.
Qed.

Lemma pieces_fold_present (items : list (Square * Piece)) :
  forall (d : dict) (sq : Square) (p : Piece),
    NoDup (map (fun it => square_name (fst it)) items) ->
    In (sq, p) items ->
    dict_get (square_name sq)
      (fold_left
         (fun mapping '(square, piece) =>
            dict_set (square_name square) (VStr (piece_symbol piece)) mapping)
         items d)
    = Some (VStr (piece_symbol p)).
Proof.
  induction items as [|[sq0 p0] items IH]; intros d sq p Hnd Hin;
    [contradiction|].
  simpl in *. inversion Hnd as [|? ? Hnot Hnd']; subst.
  destruct Hin as [Heq | Hin].
  - inversion Heq; subst. rewrite pieces_fold_absent by exact Hnot.
    apply dict_get_set_same.
  - now apply IH.
Qed.

Lemma pieces_fold_origin (items : list (Square * Piece)) :
  forall (d : dict) (k : string) (v : value),
    dict_get k
      (fold_left
         (fun mapping '(square, piece) =>
            dict_set (square_name square) (VStr (piece_symbol piece)) mapping)
         items d)
    = Some v ->
    (exists sq p, In (sq, p) items /\ k = square_name sq
                  /\ v = VStr (piece_symbol p))
    \/ dict_get k d = Some v.
Proof.
  induction items as [|[sq0 p0] items IH]; intros d k v Hget;
    [now right|].
  simpl in Hget. apply IH in Hget as [(sq & p & Hin & Hk & Hv) | Hget].
  - left. exists sq, p. split; [now right | now split].
  - destruct (String.eqb_spec (square_name sq0) k) as [Heq|Hne].
    + subst k. rewrite dict_get_set_same in Hget. inversion Hget.
      left. exists sq0, p0. split; [now left | now split].
    + rewrite dict_get_set_other in Hget by exact Hne. now right.
Qed.
End Pieces.

(** X7. [pieces_map], and with it the [pieces] entry of the status,
    holds nothing but the engine's pieces: every key is the name of an
    occupied square, bound to the symbol of a piece on it.  When no two
    occupied squares share a name, each piece is found under the name of
    its square. *)
Theorem pieces_map_lookup {E : RulesEngine} (g : GameState) :
  exists pieces st,
    pieces_map g = (Ok pieces, g) /\
    status g = (Ok st, g) /\
    dict_get "pieces" st = Some (VDict pieces) /\
    (forall k v,
        dict_get k pieces = Some v ->
        exists sq p, In (sq, p) (piece_map (board g)) /\
                     k = square_name sq /\ v = VStr (piece_symbol p)) /\
    (NoDup (map (fun it => square_name (fst it)) (piece_map (board g))) ->
     forall sq p,
       In (sq, p) (piece_map (board g)) ->
       dict_get (square_name sq) pieces = Some (VStr (piece_symbol p))).
Proof.
  eexists. exists (status_value g).
  split; [apply pieces_map_run|]. split; [apply status_run|].
  split; [reflexivity|]. split.
  - intros k v Hget. apply pieces_fold_origin in Hget as [H | H];
      [exact H | discriminate].
  - intros Hnd sq p Hin. now apply pieces_fold_present.
Qed.

Lemma pieces_map_lookup_witness :
  exists pieces,
    @pieces_map Book.standard GameState_new = (Ok pieces, GameState_new) /\
    dict_get "e1" pieces = Some (VStr "K") /\
    dict_get "a2" pieces = Some (VStr "P").
Proof.
  destruct (@pieces_map_lookup Book.standard GameState_new)
    as (pieces & st & Hrun & _ & _ & _ & Hfind).
  exists pieces. split; [exact Hrun|].
  assert (Hnd : NoDup (map (fun it => @square_name Book.standard (fst it))
                         (@piece_map Book.standard
                            (board (@GameState_new Book.standard))))).
  { simpl. repeat constructor; simpl; intuition discriminate. }
  split.
  - apply (Hfind Hnd "e1" "K"). simpl. tauto.
  - apply (Hfind Hnd "a2" "P"). simpl. tauto.
Defined.

Section PlainAndDetailed.
Context {E : RulesEngine}.

Lemma records_from_uci (h : list string) :
  forall (stack : list Move) (k : nat),
    map record_uci (records_from h k stack)
    = map (fun m => Some (VStr (move_uci m))) stack.
Proof.
  induction stack as [|m stack IH]; intros k; [reflexivity|].
  rewrite records_from_cons. simpl. f_equal. apply IH.
Qed.
End PlainAndDetailed.

(** X8. The plain and the detailed views list the same moves: the [uci]
    entries of [all_moves_detailed] are [all_moves], and for every [n]
    the [uci] entries of [last_n_moves_detailed(n)] are
    [last_n_moves(n)]. *)
Theorem detailed_uci_is_plain {E : RulesEngine} (n : Z) (g : GameState) :
  exists moves details last_plain last_detailed,
    all_moves g = (Ok moves, g) /\
    all_moves_detailed g = (Ok details, g) /\
    last_n_moves n g = (Ok last_plain, g) /\
    last_n_moves_detailed n g = (Ok last_detailed, g) /\
    map record_uci details = map (fun u => Some (VStr u)) moves /\
    map record_uci last_detailed = map (fun u => Some (VStr u)) last_plain.
Proof.
  assert (Hall : map record_uci (records g)
                 = map (fun u => Some (VStr u)) (map move_uci (stack_of g))).
  { unfold records. rewrite records_from_uci, map_map. reflexivity. }
  exists (map move_uci (stack_of g)), (records g).
  destruct (Z.leb_spec n 0) as [Hle|Hgt].
  - exists [], []. split; [apply all_moves_run|].
    split; [apply all_moves_detailed_run|].
    apply Z.leb_le in Hle.
    unfold last_n_moves, last_n_moves_detailed. rewrite Hle.
    now repeat split.
  - eexists. eexists. split; [apply all_moves_run|].
    split; [apply all_moves_detailed_run|].
    split; [now apply last_n_moves_run|].
    split; [now apply last_n_moves_detailed_run|].
    split; [exact Hall|].
    now rewrite <- !skipn_map, Hall.
Qed.

(** X9. In every state the server can reach, the detailed history has
    one record per cached notation, and the [san] entry of record [i]
    is that notation, never [None]. *)
Theorem reachable_records_have_notation {E : RulesEngine}
    {L : RulesEngineLaws E} (g : GameState) :
  reachable g ->
  exists details,
    all_moves_detailed g = (Ok details, g) /\
    List.length details = List.length (san_history g) /\
    forall i r,
      nth_error details i = Some r ->
      exists d s,
        r = VDict d /\
        nth_error (san_history g) i = Some s /\
        dict_get "san" d = Some (VStr s).
Proof.
  intros Hreach. apply reachable_in_step in Hreach.
  exists (records g). split; [apply all_moves_detailed_run|].
  split; [rewrite records_length; now symmetry|].
  intros i r Hnth.
  assert (Hlt : (i < List.length (san_history g))%nat).
  { unfold in_step in Hreach. rewrite Hreach, <- records_length.
    apply nth_error_Some. now rewrite Hnth. }
  apply records_nth_error in Hnth as (m & _ & ->).
  destruct (nth_error (san_history g) i) as [s|] eqn:Hs;
    [|apply nth_error_None in Hs; lia].
  eexists. exists s. split; [reflexivity|]. now split.
Qed.

Lemma reachable_records_have_notation_witness :
  exists details,
    @all_moves_detailed Book.standard Book.after_e4_e5
    = (Ok details, Book.after_e4_e5) /\
    List.length details = 2%nat.
Proof.
  destruct (@reachable_records_have_notation Book.standard
              (book_laws Book.six_fields) Book.after_e4_e5)
    as (details & Hrun & Hlen & _).
  - exists [AddMove "e2e4"; AddMove "e7e5"], 2. reflexivity.
  - exists details. split; [exact Hrun | exact Hlen].
Defined.

(** X10. The bounds of [_format_move_detail]: for an index [idx >= 0]
    it returns a record with ply [idx + 1] whose [san] is the cached
    notation at [idx], or [None] once [idx] reaches the length of the
    cache.  The guard [idx < len(san_history)] also lets negative
    indices through: from [-len] on they read the cache from its end,
    and below [-len] the lookup raises [IndexError]. *)
Theorem format_move_detail_bounds {E : RulesEngine}
    (idx : Z) (m : Move) (h : list string) :
  (0 <= idx ->
   exists d,
     _format_move_detail idx m h = Ok (VDict d) /\
     dict_get "ply" d = Some (VInt (idx + 1)) /\
     dict_get "uci" d = Some (VStr (move_uci m)) /\
     dict_get "san" d = Some (opt_str (nth_error h (Z.to_nat idx))) /\
     (py_len h <= idx -> dict_get "san" d = Some VNone)) /\
  (- py_len h <= idx < 0 ->
   exists d s,
     _format_move_detail idx m h = Ok (VDict d) /\
     nth_error h (Z.to_nat (py_len h + idx)) = Some s /\
     dict_get "san" d = Some (VStr s)) /\
  (idx < - py_len h ->
   _format_move_detail idx m h = Raise "list index out of range").
Proof.
  split; [|split].
  - intros Hidx. eexists. split; [now apply format_move_detail_ok|].
    split; [reflexivity|]. split; [reflexivity|]. split; [reflexivity|].
    intros Hlen. simpl.
    replace (nth_error h (Z.to_nat idx)) with (@None string); [reflexivity|].
    symmetry. apply nth_error_None. unfold py_len in Hlen. lia.
  - intros [Hlo Hhi]. pose proof (py_len_nonneg h) as Hlen.
    destruct (nth_error h (Z.to_nat (py_len h + idx))) as [s|] eqn:Hs.
    + eexists. exists s. unfold _format_move_detail, py_getitem.
      destruct (idx <? py_len h) eqn:H1; [|apply Z.ltb_ge in H1; lia].
      destruct (idx <? 0) eqn:H2; [|apply Z.ltb_ge in H2; lia].
      destruct (py_len h + idx <? 0) eqn:H3; [apply Z.ltb_lt in H3; lia|].
      rewrite Hs. now repeat split.
    + apply nth_error_None in Hs. unfold py_len in *. lia.
  - intros Hlo. pose proof (py_len_nonneg h) as Hlen.
    unfold _format_move_detail, py_getitem.
    destruct (idx <? py_len h) eqn:H1; [|apply Z.ltb_ge in H1; lia].
    destruct (idx <? 0) eqn:H2; [|apply Z.ltb_ge in H2; lia].
    destruct (py_len h + idx <? 0) eqn:H3; [|apply Z.ltb_ge in H3; lia].
    reflexivity.
Qed.

Lemma format_move_detail_bounds_witness :
  (exists d, @_format_move_detail Book.standard 2 "g1f3" ["e4"; "e5"]
             = Ok (VDict d) /\ dict_get "san" d = Some VNone) /\
  (exists d, @_format_move_detail Book.standard (-1) "g1f3" ["e4"; "e5"]
             = Ok (VDict d) /\ dict_get "san" d = Some (VStr "e5")) /\
  @_format_move_detail Book.standard (-3) "g1f3" ["e4"; "e5"]
  = Raise "list index out of range".
Proof.
  split; [|split].
  - destruct (@format_move_detail_bounds Book.standard 2 "g1f3" ["e4"; "e5"])
      as [H _].
    destruct H as (d & Hrun & _ & _ & _ & Hnone); [lia|].
    exists d. split; [exact Hrun|]. apply Hnone. vm_compute. discriminate.
  - destruct (@format_move_detail_bounds Book.standard (-1) "g1f3"
                ["e4"; "e5"]) as (_ & H & _).
    destruct H as (d & s & Hrun & Hs & Hsan); [unfold py_len; simpl; lia|].
    exists d. split; [exact Hrun|]. rewrite Hsan.
    vm_compute in Hs. now inversion Hs.
  - apply (@format_move_detail_bounds Book.standard (-3) "g1f3"
             ["e4"; "e5"]).
    vm_compute. reflexivity.
Defined.

(** X11. The three places that build the detailed history agree: what
    the [list_moves_detailed] tool returns, and what
    [create_or_reset_game] returns as [moves_detailed] for the state it
    leaves, is what [GameState.all_moves_detailed] returns there. *)
Theorem detailed_history_agree {E : RulesEngine} (g : GameState) :
  (exists details,
      all_moves_detailed g = (Ok details, g) /\
      list_moves_detailed g = (Ok (VList details), g)) /\
  (exists response g' details,
      create_or_reset_game g = (Ok (VDict response), g') /\
      all_moves_detailed g' = (Ok details, g') /\
      dict_get "moves_detailed" response = Some (VList details)).
Proof.
  split.
  - exists (records g). split; [apply all_moves_detailed_run|].
    unfold list_moves_detailed.
    erewrite bind_ok by apply format_all_moves_run. reflexivity.
  - eexists. eexists. eexists.
    split; [apply create_or_reset_game_run|].
    split; [apply all_moves_detailed_run | reflexivity].
Qed.
